(** * daily_tracker: a command-line task tracker over a JSON file

    A shallow embedding of [daily_tracker.py].  Python values read from the
    JSON file are an inductive type, the exceptions the program can meet are
    an enumeration, and the functions which read or write [tasks.json] run
    in a small state-and-exception monad over the file.

    Conventions of the model:
    - a Python [str] is a [string]: the bytes of its UTF-8 encoding.  The
      order of [str] (by code point) is the order of those bytes;
    - a Python [int] is a [Z];
    - the text of [tasks.json] is held as the value [json.loads] reads from
      it: [json.dumps] writes the text of a value and [json.loads] reads it
      back.  A text [json.loads] rejects is [Unparsable];
    - what the interpreter and the clock decide is a variable of the section:
      the date of the day and the [repr] of the values whose [str] is their
      [repr]. *)

From Stdlib Require Import ZArith List String Ascii Bool Lia.
From Stdlib Require Import Sorted Permutation DecimalString DecimalPos.
From Stdlib Require Import Floats.SpecFloat.
Import ListNotations.

Set Warnings "-register-all".

Local Open Scope string_scope.
Local Open Scope Z_scope.

(** ** Python values and exceptions *)

(** The values [json.loads] builds.  A [dict] keeps its keys in order; the
    keys of a [dict] are distinct, and [dict_get] reads the first binding. *)
Inductive json : Type :=
| JNull
| JBool (b : bool)
| JInt (n : Z)
| JFloat (f : spec_float)
| JStr (s : string)
| JList (items : list json)
| JObj (fields : list (string * json)).

(** The exceptions met by the program.  [TaskError] is the program's own
    class, [ArgumentTypeError] is the one of [argparse]; the others are
    built in. *)
Inductive exn : Type :=
| TaskError (msg : string)
| KeyError (key : string)
| TypeError
| ValueError
| OverflowError
| IndexError
| ArgumentTypeError (msg : string).

(** The result of a computation which may raise. *)
Inductive result (A : Type) : Type :=
| Ok (a : A)
| Raise (e : exn).
Arguments Ok {A} a.
Arguments Raise {A} e.

Definition rbind {A B} (r : result A) (k : A -> result B) : result B :=
  match r with
  | Ok a => k a
  | Raise e => Raise e
  end.

Declare Scope res_scope.
Delimit Scope res_scope with res.
Notation "'let?' x ':=' r 'in' k" := (rbind r (fun x => k))
  (at level 10, x name, r at level 200, k at level 200) : res_scope.

(** ** Built-in functions *)

Definition is_digit (c : ascii) : bool :=
  ((48 <=? nat_of_ascii c) && (nat_of_ascii c <=? 57))%nat.

Definition digit_value (c : ascii) : Z := Z.of_nat (nat_of_ascii c) - 48.

Definition digit_char (d : Z) : ascii := ascii_of_nat (Z.to_nat (48 + d)).

(** ASCII white space as [str.strip] and [int] see it: tab to carriage
    return, the separators 28 to 31, and the space. *)
Definition is_space (c : ascii) : bool :=
  let n := nat_of_ascii c in
  (((9 <=? n) && (n <=? 13)) || ((28 <=? n) && (n <=? 32)))%nat.

Fixpoint lstrip (s : list ascii) : list ascii :=
  match s with
  | c :: r => if is_space c then lstrip r else s
  | [] => []
  end.

Definition strip (s : list ascii) : list ascii :=
  rev (lstrip (rev (lstrip s))).

(** The digits of a decimal literal: one digit at least, and single
    underscores between digits only.  [acc] is the value read so far and
    [after_digit] tells whether the last character was a digit. *)
Fixpoint int_digits (s : list ascii) (acc : Z) (after_digit : bool) : option Z :=
  match s with
  | [] => if after_digit then Some acc else None
  | c :: r =>
      if is_digit c then int_digits r (10 * acc + digit_value c) true
      else if (Ascii.eqb c "_" && after_digit)%bool then
        match r with
        | d :: _ => if is_digit d then int_digits r acc false else None
        | [] => None
        end
      else None
  end.

(** [int(s)] for a [str] in base ten: surrounding white space, an optional
    sign, the digits.  (Digits and white space outside ASCII, which Python
    also reads, and the limit Python puts on the length of a decimal text,
    are not in the model.) *)
Definition int_of_str (s : string) : result Z :=
  let body := strip (list_ascii_of_string s) in
  let signed :=
    match body with
    | "-"%char :: r => option_map Z.opp (int_digits r 0 false)
    | "+"%char :: r => int_digits r 0 false
    | _ => int_digits body 0 false
    end in
  match signed with
  | Some n => Ok n
  | None => Raise ValueError
  end.

(** [int(x)] for a float: truncation towards zero. *)
Definition int_of_float (f : spec_float) : result Z :=
  match f with
  | S754_zero _ => Ok 0
  | S754_infinity _ => Raise OverflowError
  | S754_nan => Raise ValueError
  | S754_finite sign m e =>
      let magnitude :=
        if 0 <=? e then Z.pos m * 2 ^ e else Z.pos m / 2 ^ (- e) in
      Ok (if sign then - magnitude else magnitude)
  end.

(** [int(x)] *)
Definition py_int (x : json) : result Z :=
  match x with
  | JInt n => Ok n
  | JBool b => Ok (if b then 1 else 0)
  | JFloat f => int_of_float f
  | JStr s => int_of_str s
  | JNull | JList _ | JObj _ => Raise TypeError
  end.

(** [bool(x)]: the truth value of [x]. *)
Definition py_bool (x : json) : bool :=
  match x with
  | JNull => false
  | JBool b => b
  | JInt n => negb (n =? 0)
  | JFloat (S754_zero _) => false
  | JFloat _ => true
  | JStr s => negb (String.eqb s "")
  | JList items => match items with [] => false | _ => true end
  | JObj fields => match fields with [] => false | _ => true end
  end.

(** [str(n)] for an [int]. *)
Definition str_of_int (n : Z) : string :=
  NilZero.string_of_int (Z.to_int n).

(** [x[key]] *)
Fixpoint dict_get (fields : list (string * json)) (key : string) : option json :=
  match fields with
  | [] => None
  | (k, v) :: rest => if String.eqb k key then Some v else dict_get rest key
  end.

Definition subscript (raw : json) (key : string) : result json :=
  match raw with
  | JObj fields =>
      match dict_get fields key with
      | Some v => Ok v
      | None => Raise (KeyError key)
      end
  | _ => Raise TypeError
  end.

(** [for item in data]: the items a loop over [data] visits.  A [dict]
    gives its keys and a [str] its characters (here one per byte; each is a
    [str] of its own, which is all [from_dict] looks at). *)
Definition py_iter (data : json) : result (list json) :=
  match data with
  | JList items => Ok items
  | JObj fields => Ok (map (fun kv => JStr (fst kv)) fields)
  | JStr s => Ok (map (fun c => JStr (String c "")) (list_ascii_of_string s))
  | JNull | JBool _ | JInt _ | JFloat _ => Raise TypeError
  end.

(** [max(values, default=d)] *)
Definition py_max (values : list Z) (default : Z) : Z :=
  match values with
  | [] => default
  | v :: rest => fold_left Z.max rest v
  end.

(** [tasks.pop(index)] for an index which is not negative. *)
Fixpoint list_pop {A} (index : nat) (l : list A) : result (A * list A) :=
  match l, index with
  | [], _ => Raise IndexError
  | x :: rest, O => Ok (x, rest)
  | x :: rest, S i =>
      match list_pop i rest with
      | Ok (y, rest') => Ok (y, x :: rest')
      | Raise e => Raise e
      end
  end.

(** The list in which the object at [index] has become [x]. *)
Fixpoint list_set {A} (index : nat) (x : A) (l : list A) : list A :=
  match l, index with
  | [], _ => []
  | _ :: rest, O => x :: rest
  | y :: rest, S i => y :: list_set i x rest
  end.

(** [a < b] on [str]. *)
Definition str_lt (a b : string) : bool :=
  match String.compare a b with
  | Lt => true
  | _ => false
  end.

(** [a < b] on tuples [(str, int)]: the first components which differ
    decide. *)
Definition tuple_lt (a b : string * Z) : bool :=
  if String.eqb (fst a) (fst b) then snd a <? snd b
  else str_lt (fst a) (fst b).

(** [sorted(l, key=key)]: the stable sort under [<] on the keys. *)
Section Sorted.
Context {A : Type} (key : A -> string * Z).

Fixpoint insert (x : A) (l : list A) : list A :=
  match l with
  | [] => [x]
  | y :: rest =>
      if tuple_lt (key y) (key x) then y :: insert x rest else x :: l
  end.

Definition sorted (l : list A) : list A := fold_right insert [] l.
End Sorted.

(** [sep.join(lines)] *)
Fixpoint join (sep : string) (lines : list string) : string :=
  match lines with
  | [] => ""
  | [line] => line
  | line :: rest => line ++ sep ++ join sep rest
  end.

(** [s.lower()] on ASCII letters; the other bytes stay. *)
Definition lower_char (c : ascii) : ascii :=
  let n := nat_of_ascii c in
  if ((65 <=? n) && (n <=? 90))%nat then ascii_of_nat (n + 32) else c.

Fixpoint lower (s : string) : string :=
  match s with
  | EmptyString => EmptyString
  | String c rest => String (lower_char c) (lower rest)
  end.

(** [s.zfill(width)] for a string of digits. *)
Definition zfill (width : nat) (digits : string) : string :=
  string_of_list_ascii (repeat "0"%char (width - String.length digits))
  ++ digits.

(** [format(n, "03d")]: the sign counts in the width. *)
Definition format_03d (n : Z) : string :=
  if n <? 0 then "-" ++ zfill 2 (str_of_int (- n)) else zfill 3 (str_of_int n).

(** ** Calendar dates *)

Record date : Type := { year : Z; month : Z; day : Z }.

Definition is_leap (y : Z) : bool :=
  (y mod 4 =? 0) && (negb (y mod 100 =? 0) || (y mod 400 =? 0)).

Definition days_in_month (y m : Z) : Z :=
  if m =? 2 then (if is_leap y then 29 else 28)
  else if (m =? 4) || (m =? 6) || (m =? 9) || (m =? 11) then 30
  else 31.

(** The dates [datetime.date] builds: anything else is a [ValueError]. *)
Definition valid_date (d : date) : bool :=
  (1 <=? year d) && (year d <=? 9999) &&
  (1 <=? month d) && (month d <=? 12) &&
  (1 <=? day d) && (day d <=? days_in_month (year d) (month d)).

Definition DATE_FMT : string := "%Y-%m-%d".

(** [d.strftime(DATE_FMT)] *)
Definition strftime (d : date) : string :=
  zfill 4 (str_of_int (year d)) ++ "-" ++
  zfill 2 (str_of_int (month d)) ++ "-" ++
  zfill 2 (str_of_int (day d)).

(** ** The pattern of [strptime]

    [datetime.strptime] turns its format into a regular expression and
    matches it at the start of the text, trying the alternatives of a group
    from left to right and coming back to the next one when the rest of the
    pattern fails.  The class [\d] is the ten ASCII digits here; the digits
    of other scripts, which it also matches in Python, are not in the
    model. *)
Inductive regex : Type :=
| Chr (p : ascii -> bool)
| Seq (a b : regex)
| Alt (a b : regex).

Fixpoint rmatch {R} (r : regex) (s : list ascii)
    (k : list ascii -> option R) : option R :=
  match r with
  | Chr p =>
      match s with
      | c :: rest => if p c then k rest else None
      | [] => None
      end
  | Seq a b => rmatch a s (fun rest => rmatch b rest k)
  | Alt a b =>
      match rmatch a s k with
      | Some x => Some x
      | None => rmatch b s k
      end
  end.

(** A named group: the continuation receives the text the group matched. *)
Definition group {R} (r : regex) (s : list ascii)
    (k : list ascii -> list ascii -> option R) : option R :=
  rmatch r s (fun rest => k (firstn (List.length s - List.length rest) s) rest).

Definition lit (c : ascii) : regex := Chr (Ascii.eqb c).

Definition range (lo hi : ascii) : regex :=
  Chr (fun c => (nat_of_ascii lo <=? nat_of_ascii c)%nat
                && (nat_of_ascii c <=? nat_of_ascii hi)%nat).

Definition digit : regex := Chr is_digit.

(** [(?P<Y>\d\d\d\d)] *)
Definition re_Y : regex := Seq digit (Seq digit (Seq digit digit)).

(** [(?P<m>1[0-2]|0[1-9]|[1-9])] *)
Definition re_m : regex :=
  Alt (Seq (lit "1") (range "0" "2"))
 (Alt (Seq (lit "0") (range "1" "9"))
      (range "1" "9")).

(** [(?P<d>3[0-1]|[1-2]\d|0[1-9]|[1-9]| [1-9])] *)
Definition re_d : regex :=
  Alt (Seq (lit "3") (range "0" "1"))
 (Alt (Seq (range "1" "2") digit)
 (Alt (Seq (lit "0") (range "1" "9"))
 (Alt (range "1" "9")
      (Seq (lit " ") (range "1" "9"))))).

(** The match of the pattern of [DATE_FMT]: the texts of the three groups
    and what is left of the input. *)
Definition match_date_fmt (s : list ascii)
    : option (list ascii * list ascii * list ascii * list ascii) :=
  group re_Y s (fun Y s1 =>
  rmatch (lit "-") s1 (fun s2 =>
  group re_m s2 (fun m s3 =>
  rmatch (lit "-") s3 (fun s4 =>
  group re_d s4 (fun d rest =>
  Some (Y, m, d, rest)))))).

(** [datetime.strptime(value, DATE_FMT)]: a [ValueError] when the text does
    not match, when text is left after the match, and when the numbers read
    are not those of a date. *)
Definition strptime (value : string) : result date :=
  match match_date_fmt (list_ascii_of_string value) with
  | None => Raise ValueError
  | Some (Y, m, d, rest) =>
      match rest with
      | _ :: _ => Raise ValueError
      | [] =>
          (let? y := int_of_str (string_of_list_ascii Y) in
           let? mo := int_of_str (string_of_list_ascii m) in
           let? dd := int_of_str (string_of_list_ascii d) in
           let parsed := {| year := y; month := mo; day := dd |} in
           if valid_date parsed then Ok parsed else Raise ValueError)%res
      end
  end.

(** ** The task model *)

Record Task : Type := {
  task_id : Z;
  description : string;
  scheduled_for : string;
  completed : bool
}.

Definition matches_date (self : Task) (date : option string) : bool :=
  match date with
  | None => true
  | Some d => String.eqb (scheduled_for self) d
  end.

Definition matches_state (self : Task) (state : option bool) : bool :=
  match state with
  | None => true
  | Some c => Bool.eqb (completed self) c
  end.

(** [task.completed = completed] *)
Definition set_completed (task : Task) (c : bool) : Task :=
  {| task_id := task_id task;
     description := description task;
     scheduled_for := scheduled_for task;
     completed := c |}.

(** [dataclasses.asdict(task)] *)
Definition asdict (task : Task) : json :=
  JObj [ ("task_id", JInt (task_id task));
         ("description", JStr (description task));
         ("scheduled_for", JStr (scheduled_for task));
         ("completed", JBool (completed task)) ].

(** [raw.get(key, default)], called on a [dict]. *)
Definition dict_get_default (raw : json) (key : string) (default : json)
    : result json :=
  match raw with
  | JObj fields =>
      match dict_get fields key with
      | Some v => Ok v
      | None => Ok default
      end
  | _ => Raise TypeError
  end.

(** The file [tasks.json], when it exists. *)
Inductive file : Type :=
| Parsed (data : json)
| Unparsable.

Definition store : Type := option file.

(** Computations over the file: a result and the file left behind.  An
    exception keeps what was written before it. *)
Definition M (A : Type) : Type := store -> result A * store.

Definition ret {A} (a : A) : M A := fun disk => (Ok a, disk).

Definition raise {A} (e : exn) : M A := fun disk => (Raise e, disk).

Definition bind {A B} (m : M A) (k : A -> M B) : M B :=
  fun disk =>
    match m disk with
    | (Ok a, disk') => k a disk'
    | (Raise e, disk') => (Raise e, disk')
    end.

Definition lift {A} (r : result A) : M A := fun disk => (r, disk).

Declare Scope io_scope.
Delimit Scope io_scope with io.
Notation "'let!' x ':=' m 'in' k" := (bind m (fun x => k))
  (at level 10, x name, m at level 200, k at level 200) : io_scope.
Notation "m ';;' k" := (bind m (fun _ => k))
  (at level 61, right associativity) : io_scope.

(** [[f(item) for item in items]]: the first exception ends the loop. *)
Fixpoint comprehension {A B} (f : A -> result B) (items : list A)
    : result (list B) :=
  match items with
  | [] => Ok []
  | item :: rest =>
      (let? x := f item in
       let? xs := comprehension f rest in
       Ok (x :: xs))%res
  end.

(** A command line as [argparse] reads it: the command, its positional
    texts, and for each option whether it was given (once at most) and
    with which text. *)
Inductive cmdline : Type :=
| ArgvAdd (description : string) (date : option string)
| ArgvList (date : option string) (all completed pending : bool)
| ArgvDone (task_id : string) (undone : bool)
| ArgvRemove (task_id : string).

(** The namespace [parse_args] returns. *)
Inductive args : Type :=
| AddArgs (description : string) (date : string)
| ListArgs (date : string) (all completed pending : bool)
| DoneArgs (task_id : Z) (undone : bool)
| RemoveArgs (task_id : Z).

(** [parser.error] writes the usage and leaves with [SystemExit(2)]. *)
Inductive parsed : Type :=
| Namespace (a : args)
| ParserError.

(** How the process ends: [main] returned a code, [argparse] left by
    itself, or an exception went through [main]. *)
Inductive status : Type :=
| Returned (code : Z)
| SystemExit (code : Z)
| Uncaught (e : exn).

(** The exit code of the process: an exception which nobody catches ends
    the interpreter with code 1 after a traceback. *)
Definition exit_code (s : status) : Z :=
  match s with
  | Returned code => code
  | SystemExit code => code
  | Uncaught _ => 1
  end.

(** A run of the program: how it ended, what [print] wrote on each stream,
    and the file it left. *)
Record run : Type := {
  ended : status;
  stdout : list string;
  stderr : list string;
  disk_after : store
}.

(** A day and a [repr] on which the statements are tried. *)
Definition sample_day : date := {| year := 2024; month := 5; day := 1 |}.

Definition sample_repr (x : json) : string := "<repr>".

Definition milk : Task :=
  {| task_id := 1; description := "Buy milk";
     scheduled_for := "2024-05-01"; completed := false |}.

Definition report : Task :=
  {| task_id := 2; description := "Write report";
     scheduled_for := "2024-04-30"; completed := true |}.

(** A task which bears the id of [milk]. *)
Definition twin : Task :=
  {| task_id := 1; description := "Đọc sách";
     scheduled_for := "2024-05-02"; completed := false |}.

Section Program.

(** [_dt.date.today()] *)
Variable today : date.

(** [repr(x)] for the values whose [str] is their [repr]: floats, lists
    and dicts. *)
Variable py_repr : json -> string.

(** [str(x)] *)
Definition py_str (x : json) : string :=
  match x with
  | JStr s => s
  | JInt n => str_of_int n
  | JBool b => if b then "True" else "False"
  | JNull => "None"
  | JFloat _ | JList _ | JObj _ => py_repr x
  end.

Definition from_dict (raw : json) : result Task :=
  (let? id := rbind (subscript raw "task_id") py_int in
   let? text := subscript raw "description" in
   let? date := subscript raw "scheduled_for" in
   let? flag := dict_get_default raw "completed" (JBool false) in
   Ok {| task_id := id;
         description := py_str text;
         scheduled_for := py_str date;
         completed := py_bool flag |})%res.

(** *** Storage helpers *)

Definition load_tasks : M (list Task) :=
  fun disk =>
    match disk with
    | None => (Ok [], disk)
    | Some Unparsable =>
        (Raise (TaskError
           "Không thể đọc dữ liệu nhiệm vụ. Hãy kiểm tra file tasks.json"),
         disk)
    | Some (Parsed data) =>
        ((let? items := py_iter data in comprehension from_dict items)%res,
         disk)
    end.

Definition save_tasks (tasks : list Task) : M unit :=
  fun _ => (Ok tt, Some (Parsed (JList (map asdict tasks)))).

(** *** Task management actions *)

Definition next_task_id (tasks : list Task) : Z :=
  let current := map task_id tasks in
  py_max current 0 + 1.

Definition add_task (description scheduled_for : string) : M Task :=
  (let! tasks := load_tasks in
   let new_id := next_task_id tasks in
   let new_task := {| task_id := new_id;
                      description := description;
                      scheduled_for := scheduled_for;
                      completed := false |} in
   save_tasks (tasks ++ [new_task])%list ;;
   ret new_task)%io.

(** The key of the listing: [lambda task: (task.scheduled_for,
    task.task_id)]. *)
Definition key_of (task : Task) : string * Z :=
  (scheduled_for task, task_id task).

Definition list_tasks (date : option string) (show_all : bool)
    (state : option bool) : M (list Task) :=
  (let! tasks := load_tasks in
   let tasks :=
     if negb show_all
     then filter (fun task => matches_date task date) tasks
     else tasks in
   let tasks :=
     match state with
     | Some _ => filter (fun task => matches_state task state) tasks
     | None => tasks
     end in
   ret (sorted key_of tasks))%io.

Definition not_found (id : Z) : exn :=
  TaskError ("Không tìm thấy nhiệm vụ với mã " ++ str_of_int id ++ ".").

(** The loop of [update_task_state]: [todo] is what is left to visit of
    [tasks], from position [index].  The task found is changed in place,
    so the list which is saved holds it as changed. *)
Fixpoint update_loop (tasks : list Task) (index : nat) (todo : list Task)
    (id : Z) (c : bool) : M Task :=
  match todo with
  | [] => raise (not_found id)
  | task :: rest =>
      if task_id task =? id then
        let task := set_completed task c in
        let tasks := list_set index task tasks in
        (save_tasks tasks ;; ret task)%io
      else update_loop tasks (S index) rest id c
  end.

Definition update_task_state (id : Z) (c : bool) : M Task :=
  (let! tasks := load_tasks in update_loop tasks 0 tasks id c)%io.

(** The loop of [remove_task], over [enumerate(tasks)]. *)
Fixpoint remove_loop (tasks : list Task) (index : nat) (todo : list Task)
    (id : Z) : M Task :=
  match todo with
  | [] => raise (not_found id)
  | task :: rest =>
      if task_id task =? id then
        (let! popped := lift (list_pop index tasks) in
         let removed := fst popped in
         let tasks := snd popped in
         save_tasks tasks ;; ret removed)%io
      else remove_loop tasks (S index) rest id
  end.

Definition remove_task (id : Z) : M Task :=
  (let! tasks := load_tasks in remove_loop tasks 0 tasks id)%io.

(** *** CLI helpers *)

Definition parse_date (value : string) : result string :=
  if String.eqb (lower value) "today" then Ok (strftime today)
  else
    match strptime value with
    | Ok _ => Ok value
    | Raise _ =>
        Raise (ArgumentTypeError
          ("Ngày không hợp lệ: '" ++ value
           ++ "'. Định dạng đúng là YYYY-MM-DD."))
    end.

(** The value of [--date]: the text given, or the default, goes through
    [type=parse_date]; [argparse] also converts a default which is a
    string. *)
Definition date_option (given : option string) : result string :=
  parse_date
    (match given with
     | Some text => text
     | None => strftime today
     end).

(** [build_parser().parse_args(argv)]: the conversions of the arguments,
    the defaults, and the group in which [--completed] excludes
    [--pending].  An exception of a conversion is a parser error. *)
Definition parse_args (argv : cmdline) : parsed :=
  match argv with
  | ArgvAdd text date =>
      match date_option date with
      | Ok d => Namespace (AddArgs text d)
      | Raise _ => ParserError
      end
  | ArgvList date all done pending =>
      match date_option date with
      | Ok d =>
          if done && pending then ParserError
          else Namespace (ListArgs d all done pending)
      | Raise _ => ParserError
      end
  | ArgvDone id undone =>
      match int_of_str id with
      | Ok n => Namespace (DoneArgs n undone)
      | Raise _ => ParserError
      end
  | ArgvRemove id =>
      match int_of_str id with
      | Ok n => Namespace (RemoveArgs n)
      | Raise _ => ParserError
      end
  end.

Definition render_line (task : Task) : string :=
  let status := if completed task then "✅" else "⬜" in
  "[" ++ format_03d (task_id task) ++ "] " ++ status ++ " "
  ++ scheduled_for task ++ " - " ++ description task.

Definition render_tasks (tasks : list Task) : string :=
  let lines := map render_line tasks in
  match lines with
  | [] => "Không có nhiệm vụ nào khớp với yêu cầu."
  | _ => join (String "010" "") lines
  end.

(** The body of the [try] of [main]: the operation, then the line it
    prints. *)
Definition command (a : args) : M string :=
  match a with
  | AddArgs text date =>
      (let! new_task := add_task text date in
       ret ("Đã thêm nhiệm vụ " ++ str_of_int (task_id new_task) ++ ": "
            ++ description new_task))%io
  | ListArgs date all done pending =>
      let completed_state :=
        if done then Some true
        else if pending then Some false
        else None in
      (let! tasks := list_tasks (Some date) all completed_state in
       ret (render_tasks tasks))%io
  | DoneArgs id undone =>
      (let! updated := update_task_state id (negb undone) in
       let state :=
         if completed updated then "hoàn thành" else "chưa hoàn thành" in
       ret ("Nhiệm vụ " ++ str_of_int (task_id updated) ++ " hiện "
            ++ state ++ "."))%io
  | RemoveArgs id =>
      (let! removed := remove_task id in
       ret ("Đã xoá nhiệm vụ " ++ str_of_int (task_id removed) ++ ": "
            ++ description removed))%io
  end.

Definition main (argv : cmdline) (disk : store) : run :=
  match parse_args argv with
  | ParserError =>
      {| ended := SystemExit 2; stdout := []; stderr := [];
         disk_after := disk |}
  | Namespace a =>
      match command a disk with
      | (Ok line, disk') =>
          {| ended := Returned 0; stdout := [line]; stderr := [];
             disk_after := disk' |}
      | (Raise (TaskError msg), disk') =>
          {| ended := Returned 1; stdout := []; stderr := [msg];
             disk_after := disk' |}
      | (Raise e, disk') =>
          {| ended := Uncaught e; stdout := []; stderr := [];
             disk_after := disk' |}
      end
  end.


(** *** Vocabulary of the properties *)

(** The collection the file holds: what [load_tasks] returns on it. *)
Definition stored (disk : store) (tasks : list Task) : Prop :=
  fst (load_tasks disk) = Ok tasks.

(** The file [save_tasks] writes for a collection. *)
Definition file_of (tasks : list Task) : store :=
  Some (Parsed (JList (map asdict tasks))).

(** A sequence of calls of [add_task], each on the file the one before
    left: the results in order, and the last file. *)
Fixpoint run_adds (calls : list (string * string)) (disk : store)
    : list (result Task) * store :=
  match calls with
  | [] => ([], disk)
  | (text, date) :: rest =>
      let (r, disk') := add_task text date disk in
      let (rs, disk'') := run_adds rest disk' in
      (r :: rs, disk'')
  end.

Definition returned_id (r : result Task) : result Z :=
  match r with
  | Ok task => Ok (task_id task)
  | Raise e => Raise e
  end.

(** [n] is one more than the greatest id of [tasks], and 1 when there is
    no task. *)
Definition max_id_plus_one (tasks : list Task) (n : Z) : Prop :=
  match tasks with
  | [] => n = 1
  | _ :: _ =>
      exists top, In top tasks
                  /\ (forall task, In task tasks -> task_id task <= task_id top)
                  /\ n = task_id top + 1
  end.

(** The order of the listing: by date, then by id. *)
Definition listed_before (a b : Task) : Prop :=
  str_lt (scheduled_for a) (scheduled_for b) = true
  \/ (scheduled_for a = scheduled_for b /\ task_id a <= task_id b).

(** What [list_tasks] keeps of a collection. *)
Definition selected (date : option string) (show_all : bool)
    (state : option bool) (task : Task) : bool :=
  (show_all || matches_date task date) && matches_state task state.

(** The ways [strptime] lets a date be written for [DATE_FMT]: the month
    and the day with or without their leading zero, the day also with a
    space in its place. *)
Definition spellings (d : date) : list string :=
  let y := zfill 4 (str_of_int (year d)) in
  let months := [zfill 2 (str_of_int (month d)); str_of_int (month d)] in
  let days := [zfill 2 (str_of_int (day d)); str_of_int (day d);
               " " ++ str_of_int (day d)] in
  flat_map (fun m => map (fun dd => y ++ "-" ++ m ++ "-" ++ dd) days) months.

(** The texts of ASCII characters. *)
Definition is_ascii (s : string) : bool :=
  forallb (fun c => (nat_of_ascii c <? 128)%nat) (list_ascii_of_string s).

(** What the specification asks of a date argument: the token [today], or
    a date written with all its zeros. *)
Definition literal_today_or_padded (value : string) : Prop :=
  value = "today" \/ exists d, valid_date d = true /\ value = strftime d.

(** The text of four decimal digits. *)
Definition digits4 (a b c d : Z) : list ascii :=
  [digit_char a; digit_char b; digit_char c; digit_char d].

Definition four_digit_value (a b c d : Z) : Z :=
  1000 * a + 100 * b + 10 * c + d.

Definition reads_as (r : result Z) (n : Z) : bool :=
  match r with
  | Ok v => v =? n
  | Raise _ => false
  end.

(** On four digits, [int] reads the number which [str] and [zfill] write
    with these digits. *)
Definition year_text_agrees (a b c d : Z) : bool :=
  let y := four_digit_value a b c d in
  let text := string_of_list_ascii (digits4 a b c d) in
  String.eqb (zfill 4 (str_of_int y)) text && reads_as (int_of_str text) y.

Definition decimal_digits : list Z := [0; 1; 2; 3; 4; 5; 6; 7; 8; 9].

(** The pattern after the group of the year. *)
Definition match_month_day (s1 : list ascii)
    : option (list ascii * list ascii * list ascii) :=
  rmatch (lit "-") s1 (fun s2 =>
  group re_m s2 (fun m s3 =>
  rmatch (lit "-") s3 (fun s4 =>
  group re_d s4 (fun d rest =>
  Some (m, d, rest))))).

(** A month and a day written with two digits are matched whole, and
    [int] reads them back. *)
Definition month_day_agrees (m d : Z) : bool :=
  match match_month_day
          ("-"%char :: list_ascii_of_string (zfill 2 (str_of_int m))
           ++ "-"%char :: list_ascii_of_string (zfill 2 (str_of_int d)))%list
  with
  | Some (M, D, []) =>
      reads_as (int_of_str (string_of_list_ascii M)) m
      && reads_as (int_of_str (string_of_list_ascii D)) d
  | _ => false
  end.



(** The tasks which the order of the listing does not tell apart. *)
Definition same_key (a b : Task) : bool :=
  String.eqb (scheduled_for a) (scheduled_for b)
  && (task_id a =? task_id b).

(** The texts [strptime] reads as a month: two digits, or the number as
    it is. *)
Definition month_spellings (m : Z) : list string :=
  [zfill 2 (str_of_int m); str_of_int m].

(** The texts [strptime] reads as a day: two digits, the number as it is,
    and for a day of one digit a space and this digit. *)
Definition day_spellings (d : Z) : list string :=
  ([zfill 2 (str_of_int d); str_of_int d]
   ++ (if d <? 10 then [(" " ++ str_of_int d)%string] else []))%list.

(** The month and the day of a date in each of their spellings. *)
Definition spelled_tails (m d : Z) : list string :=
  flat_map (fun ms => map (fun ds => ms ++ "-" ++ ds) (day_spellings d))
           (month_spellings m).

(** The texts [strptime] reads as a date, for the format of the program. *)
Definition accepted_spellings (d : date) : list string :=
  map (fun tail => zfill 4 (str_of_int (year d)) ++ "-" ++ tail)
      (spelled_tails (month d) (day d)).

(** Each spelling of a month and a day is matched whole, and [int] reads
    the month and the day back. *)
Definition spelled_tails_agree (m d : Z) : bool :=
  forallb
    (fun tail =>
       match match_month_day ("-"%char :: list_ascii_of_string tail) with
       | Some (M, D, []) =>
           reads_as (int_of_str (string_of_list_ascii M)) m
           && reads_as (int_of_str (string_of_list_ascii D)) d
       | _ => false
       end)
    (spelled_tails m d).

(** The integers whose decimal text Python agrees to write and to read: at
    most 4300 digits. *)
Definition within_digit_limit (n : Z) : Prop := Z.abs n < 10 ^ 4300.

(** The words of a regular expression. *)
Inductive matches : regex -> list ascii -> Prop :=
| matches_chr p c : p c = true -> matches (Chr p) [c]
| matches_seq a b s t :
    matches a s -> matches b t -> matches (Seq a b) (s ++ t)
| matches_alt_l a b s : matches a s -> matches (Alt a b) s
| matches_alt_r a b s : matches b s -> matches (Alt a b) s.

(** ** Properties *)

Local Open Scope list_scope.

(** *** Storage *)

Lemma load_keeps_disk disk : snd (load_tasks disk) = disk.
Proof. destruct disk as [[data|]|]; reflexivity. Qed.

Lemma from_dict_asdict task : from_dict (asdict task) = Ok task.
Proof. destruct task; reflexivity. Qed.

Lemma comprehension_asdict tasks :
  comprehension from_dict (map asdict tasks) = Ok tasks.
Proof.
  induction tasks as [|task tasks IH]; [reflexivity|].
  cbn [map comprehension]. rewrite from_dict_asdict. cbn [rbind].
  rewrite IH. reflexivity.
Qed.

Lemma load_file_of tasks : load_tasks (file_of tasks) = (Ok tasks, file_of tasks).
Proof.
  unfold load_tasks, file_of. cbn [py_iter rbind].
  rewrite comprehension_asdict. reflexivity.
Qed.

Lemma stored_file_of tasks : stored (file_of tasks) tasks.
Proof. unfold stored. rewrite load_file_of. reflexivity. Qed.

Lemma load_stored disk tasks :
  stored disk tasks -> load_tasks disk = (Ok tasks, disk).
Proof.
  unfold stored. intros H. rewrite (surjective_pairing (load_tasks disk)).
  rewrite H, load_keeps_disk. reflexivity.
Qed.



(** *** Identifiers *)

Lemma fold_max_spec rest v :
  v <= fold_left Z.max rest v
  /\ Forall (fun x => x <= fold_left Z.max rest v) rest
  /\ (fold_left Z.max rest v = v \/ In (fold_left Z.max rest v) rest).
Proof.
  revert v. induction rest as [|x rest IH]; intros v; cbn [fold_left].
  - split; [lia|]. split; [constructor|]. left; reflexivity.
  - destruct (IH (Z.max v x)) as (Hge & Hall & Hin).
    split; [lia|]. split.
    + constructor; [lia|exact Hall].
    + destruct Hin as [Heq|Hin]; [|right; right; exact Hin].
      rewrite Heq. destruct (Z.max_spec v x) as [[_ ->]|[_ ->]].
      * right; left; reflexivity.
      * left; reflexivity.
Qed.

Lemma next_task_id_spec tasks : max_id_plus_one tasks (next_task_id tasks).
Proof.
  unfold next_task_id. destruct tasks as [|first rest]; [reflexivity|].
  cbn [max_id_plus_one map py_max].
  destruct (fold_max_spec (map task_id rest) (task_id first))
    as (Hge & Hall & Hin).
  assert (Htop : exists top, In top (first :: rest)
                 /\ task_id top
                    = fold_left Z.max (map task_id rest) (task_id first)).
  { destruct Hin as [Heq|Hin].
    - exists first. split; [left; reflexivity|symmetry; exact Heq].
    - apply in_map_iff in Hin. destruct Hin as (top & Heq & Hin).
      exists top. split; [right; exact Hin|exact Heq]. }
  destruct Htop as (top & Hin' & Heq). exists top.
  split; [exact Hin'|]. split; [|rewrite Heq; reflexivity].
  intros task [<-|Htask]; rewrite Heq; [exact Hge|].
  rewrite Forall_forall in Hall. apply Hall, in_map, Htask.
Qed.

Lemma next_task_id_after_add tasks task :
  task_id task = next_task_id tasks ->
  next_task_id (tasks ++ [task]) = next_task_id tasks + 1.
Proof.
  unfold next_task_id. intros Hid. rewrite map_app. cbn [map].
  destruct tasks as [|first rest].
  - cbn in *. lia.
  - cbn [map app py_max] in *. rewrite fold_left_app. cbn [fold_left].
    lia.
Qed.

Lemma add_task_stored disk tasks text date :
  stored disk tasks ->
  let new_task := {| task_id := next_task_id tasks; description := text;
                     scheduled_for := date; completed := false |} in
  add_task text date disk = (Ok new_task, file_of (tasks ++ [new_task])).
Proof.
  intros H new_task. unfold add_task, bind.
  rewrite (load_stored _ _ H). reflexivity.
Qed.

Lemma run_adds_ids calls : forall disk tasks,
  stored disk tasks ->
  map returned_id (fst (run_adds calls disk))
  = map (fun k => Ok (next_task_id tasks + Z.of_nat k))
        (seq 0 (List.length calls)).
Proof.
  induction calls as [|[text date] calls IH]; intros disk tasks H;
    [reflexivity|].
  cbn [run_adds]. rewrite (add_task_stored _ _ text date H).
  set (new_task := {| task_id := next_task_id tasks |}).
  specialize (IH (file_of (tasks ++ [new_task])) (tasks ++ [new_task])
                 (stored_file_of _)).
  destruct (run_adds calls (file_of (tasks ++ [new_task]))) as [rs disk''].
  cbn [fst map List.length seq] in *. rewrite IH. f_equal.
  - unfold returned_id. f_equal.
    change (next_task_id tasks = next_task_id tasks + 0). lia.
  - rewrite <- seq_shift, map_map. apply map_ext. intros k.
    rewrite next_task_id_after_add by reflexivity. f_equal. lia.
Qed.

(** C3: [next_task_id] is one more than the greatest id, and 1 on the
    empty collection; so the calls of [add_task] which follow one another
    from an empty collection return the ids 1, 2, 3, ... in this order. *)
Theorem next_id_and_add_sequence
    (tasks : list Task) (calls : list (string * string)) (disk : store)
    (Hempty : stored disk []) :
  max_id_plus_one tasks (next_task_id tasks)
  /\ map returned_id (fst (run_adds calls disk))
     = map (fun k => Ok (Z.of_nat k)) (seq 1 (List.length calls)).
Proof.
  split; [apply next_task_id_spec|].
  rewrite (run_adds_ids calls disk [] Hempty).
  rewrite <- seq_shift, map_map. apply map_ext. intros k.
  change (next_task_id []) with 1. f_equal. lia.
Qed.

(** *** The loops over the collection *)

Lemma split_first id tasks :
  In id (map task_id tasks) ->
  exists before task after,
    tasks = before ++ task :: after
    /\ ~ In id (map task_id before)
    /\ task_id task = id.
Proof.
  induction tasks as [|first rest IH]; [intros []|].
  intros Hin. destruct (Z.eq_dec (task_id first) id) as [Heq|Hne].
  - exists [], first, rest. repeat split; [intros []|exact Heq].
  - destruct Hin as [Heq|Hin]; [contradiction|].
    destruct (IH Hin) as (before & task & after & -> & Hnot & Hid).
    exists (first :: before), task, after. repeat split; [|exact Hid].
    intros [Heq|Hin']; [contradiction|exact (Hnot Hin')].
Qed.

Lemma list_set_middle {A} (seen : list A) x y after :
  list_set (List.length seen) y (seen ++ x :: after) = seen ++ y :: after.
Proof. induction seen as [|s seen IH]; cbn; [|rewrite IH]; reflexivity. Qed.

Lemma list_pop_middle {A} (seen : list A) x after :
  list_pop (List.length seen) (seen ++ x :: after) = Ok (x, seen ++ after).
Proof. induction seen as [|s seen IH]; cbn; [|rewrite IH]; reflexivity. Qed.

Lemma step_seen {A} (seen : list A) x todo :
  seen ++ x :: todo = (seen ++ [x]) ++ todo
  /\ S (List.length seen) = List.length (seen ++ [x]).
Proof. rewrite <- app_assoc, length_app. cbn. split; [reflexivity|lia]. Qed.

Lemma update_loop_hit id c disk before : forall seen task after,
  ~ In id (map task_id before) -> task_id task = id ->
  update_loop (seen ++ before ++ task :: after) (List.length seen)
              (before ++ task :: after) id c disk
  = (Ok (set_completed task c),
     file_of (seen ++ before ++ set_completed task c :: after)).
Proof.
  induction before as [|b before IH]; intros seen task after Hnot Hid.
  - cbn [app update_loop]. rewrite (proj2 (Z.eqb_eq _ _) Hid).
    rewrite list_set_middle. reflexivity.
  - cbn [app update_loop]. cbn [map In] in Hnot.
    destruct (Z.eqb_spec (task_id b) id) as [Heq|_]; [tauto|].
    destruct (step_seen seen b (before ++ task :: after)) as [-> ->].
    rewrite IH by tauto. rewrite <- app_assoc. reflexivity.
Qed.

Lemma update_loop_miss id c disk tasks todo : forall index,
  ~ In id (map task_id todo) ->
  update_loop tasks index todo id c disk = (Raise (not_found id), disk).
Proof.
  induction todo as [|t todo IH]; intros index Hnot; [reflexivity|].
  cbn [update_loop]. cbn [map In] in Hnot.
  destruct (Z.eqb_spec (task_id t) id) as [Heq|_]; [tauto|].
  apply IH. tauto.
Qed.

Lemma remove_loop_hit id disk before : forall seen task after,
  ~ In id (map task_id before) -> task_id task = id ->
  remove_loop (seen ++ before ++ task :: after) (List.length seen)
              (before ++ task :: after) id disk
  = (Ok task, file_of (seen ++ before ++ after)).
Proof.
  induction before as [|b before IH]; intros seen task after Hnot Hid.
  - cbn [app remove_loop]. rewrite (proj2 (Z.eqb_eq _ _) Hid).
    unfold bind, lift. rewrite list_pop_middle. reflexivity.
  - cbn [app remove_loop]. cbn [map In] in Hnot.
    destruct (Z.eqb_spec (task_id b) id) as [Heq|_]; [tauto|].
    destruct (step_seen seen b (before ++ task :: after)) as [-> ->].
    rewrite IH by tauto. rewrite <- app_assoc. reflexivity.
Qed.

Lemma remove_loop_miss id disk tasks todo : forall index,
  ~ In id (map task_id todo) ->
  remove_loop tasks index todo id disk = (Raise (not_found id), disk).
Proof.
  induction todo as [|t todo IH]; intros index Hnot; [reflexivity|].
  cbn [remove_loop]. cbn [map In] in Hnot.
  destruct (Z.eqb_spec (task_id t) id) as [Heq|_]; [tauto|].
  apply IH. tauto.
Qed.

Lemma update_task_state_hit disk id c before task after :
  stored disk (before ++ task :: after) ->
  ~ In id (map task_id before) -> task_id task = id ->
  update_task_state id c disk
  = (Ok (set_completed task c),
     file_of (before ++ set_completed task c :: after)).
Proof.
  intros H Hnot Hid. unfold update_task_state, bind.
  rewrite (load_stored _ _ H).
  exact (update_loop_hit id c disk before [] task after Hnot Hid).
Qed.

Lemma update_task_state_miss disk tasks id c :
  stored disk tasks -> ~ In id (map task_id tasks) ->
  update_task_state id c disk = (Raise (not_found id), disk).
Proof.
  intros H Hnot. unfold update_task_state, bind.
  rewrite (load_stored _ _ H). apply update_loop_miss, Hnot.
Qed.

Lemma remove_task_hit disk id before task after :
  stored disk (before ++ task :: after) ->
  ~ In id (map task_id before) -> task_id task = id ->
  remove_task id disk = (Ok task, file_of (before ++ after)).
Proof.
  intros H Hnot Hid. unfold remove_task, bind.
  rewrite (load_stored _ _ H).
  exact (remove_loop_hit id disk before [] task after Hnot Hid).
Qed.

Lemma remove_task_miss disk tasks id :
  stored disk tasks -> ~ In id (map task_id tasks) ->
  remove_task id disk = (Raise (not_found id), disk).
Proof.
  intros H Hnot. unfold remove_task, bind.
  rewrite (load_stored _ _ H). apply remove_loop_miss, Hnot.
Qed.

(** C9: [update_task_state] on an id which is stored changes the
    [completed] field of the first task with this id and nothing else:
    the tasks before and after it, their order, and the id, the
    description and the date of the task itself are those of the file
    before the call. *)
Theorem update_changes_only_completed
    (disk : store) (tasks : list Task) (id : Z) (c : bool)
    (Hstored : stored disk tasks) (Hin : In id (map task_id tasks)) :
  exists before task after updated,
    tasks = before ++ task :: after
    /\ ~ In id (map task_id before)
    /\ task_id task = id
    /\ task_id updated = task_id task
    /\ description updated = description task
    /\ scheduled_for updated = scheduled_for task
    /\ completed updated = c
    /\ update_task_state id c disk
       = (Ok updated, file_of (before ++ updated :: after))
    /\ stored (file_of (before ++ updated :: after))
              (before ++ updated :: after).
Proof.
  destruct (split_first id tasks Hin) as (before & task & after & -> & Hnot & Hid).
  exists before, task, after, (set_completed task c).
  repeat split; try assumption.
  - apply update_task_state_hit; assumption.
  - apply stored_file_of.
Qed.

(** C6: [done id] then [done id --undone] on an id which is stored leave
    the first task with this id not completed, with the id, the
    description and the date it had before the first call; the file holds
    the same tasks in the same order. *)
Theorem done_then_undone_restores
    (disk : store) (tasks : list Task) (id : Z)
    (Hstored : stored disk tasks) (Hin : In id (map task_id tasks)) :
  exists before task after marked disk1 restored disk2,
    tasks = before ++ task :: after
    /\ ~ In id (map task_id before)
    /\ task_id task = id
    /\ update_task_state id true disk = (Ok marked, disk1)
    /\ completed marked = true
    /\ update_task_state id false disk1 = (Ok restored, disk2)
    /\ completed restored = false
    /\ task_id restored = task_id task
    /\ description restored = description task
    /\ scheduled_for restored = scheduled_for task
    /\ stored disk2 (before ++ restored :: after).
Proof.
  destruct (split_first id tasks Hin) as (before & task & after & -> & Hnot & Hid).
  exists before, task, after, (set_completed task true),
    (file_of (before ++ set_completed task true :: after)),
    (set_completed task false),
    (file_of (before ++ set_completed task false :: after)).
  repeat split; try assumption.
  - apply update_task_state_hit; assumption.
  - apply (update_task_state_hit _ id false before (set_completed task true) after);
      [apply stored_file_of|assumption|assumption].
  - apply stored_file_of.
Qed.

(** C4: on an id which no stored task has (so on the empty collection
    too), [remove_task] and [update_task_state] raise the [TaskError] of a
    task which is not found; the commands [remove] and [done] then print
    its message on the error stream, end with code 1 and leave the file
    as it was. *)
Theorem unknown_id_is_reported
    (disk : store) (tasks : list Task) (id : Z) (text : string)
    (c undone : bool)
    (Hstored : stored disk tasks)
    (Hnot : ~ In id (map task_id tasks))
    (Htext : int_of_str text = Ok id) :
  exists msg,
    not_found id = TaskError msg
    /\ remove_task id disk = (Raise (TaskError msg), disk)
    /\ update_task_state id c disk = (Raise (TaskError msg), disk)
    /\ main (ArgvRemove text) disk
       = {| ended := Returned 1; stdout := []; stderr := [msg];
            disk_after := disk |}
    /\ main (ArgvDone text undone) disk
       = {| ended := Returned 1; stdout := []; stderr := [msg];
            disk_after := disk |}
    /\ exit_code (ended (main (ArgvRemove text) disk)) = 1
    /\ exit_code (ended (main (ArgvDone text undone) disk)) = 1.
Proof.
  eexists. split; [reflexivity|].
  assert (Hremove := remove_task_miss disk tasks id Hstored Hnot).
  assert (Hupdate := fun c => update_task_state_miss disk tasks id c Hstored Hnot).
  unfold not_found in Hremove, Hupdate.
  unfold main, parse_args, command, bind. rewrite Htext.
  rewrite Hremove, !Hupdate. repeat split; reflexivity.
Qed.

(** *** The order of the listing *)

Lemma ascii_compare_refl c : Ascii.compare c c = Eq.
Proof. unfold Ascii.compare. apply N.compare_refl. Qed.

Lemma str_compare_refl s : String.compare s s = Eq.
Proof.
  induction s as [|c s IH]; [reflexivity|].
  cbn. rewrite ascii_compare_refl. exact IH.
Qed.

Lemma str_compare_trans a : forall b c,
  String.compare a b = Lt -> String.compare b c = Lt ->
  String.compare a c = Lt.
Proof.
  induction a as [|x a IH]; intros [|y b] [|z c]; cbn;
    try discriminate; try reflexivity.
  destruct (Ascii.compare x y) eqn:Hxy; try discriminate;
    destruct (Ascii.compare y z) eqn:Hyz; try discriminate; intros Hab Hbc.
  - apply Ascii.compare_eq_iff in Hxy, Hyz. subst.
    rewrite ascii_compare_refl. exact (IH _ _ Hab Hbc).
  - apply Ascii.compare_eq_iff in Hxy. subst. rewrite Hyz. reflexivity.
  - apply Ascii.compare_eq_iff in Hyz. subst. rewrite Hxy. reflexivity.
  - unfold Ascii.compare in *.
    rewrite N.compare_lt_iff in Hxy, Hyz.
    rewrite (proj2 (N.compare_lt_iff _ _)); [reflexivity|lia].
Qed.

Lemma str_lt_trans a b c :
  str_lt a b = true -> str_lt b c = true -> str_lt a c = true.
Proof.
  unfold str_lt. intros Hab Hbc.
  destruct (String.compare a b) eqn:H1; try discriminate.
  destruct (String.compare b c) eqn:H2; try discriminate.
  rewrite (str_compare_trans _ _ _ H1 H2). reflexivity.
Qed.

Lemma str_lt_irrefl a : str_lt a a = false.
Proof. unfold str_lt. rewrite str_compare_refl. reflexivity. Qed.

Lemma str_lt_total a b : str_lt a b = true \/ a = b \/ str_lt b a = true.
Proof.
  unfold str_lt. rewrite (String.compare_antisym b a).
  destruct (String.compare a b) eqn:H; cbn; auto.
  right; left. apply String.compare_eq_iff, H.
Qed.

Lemma not_lt_listed_before a b :
  tuple_lt (key_of b) (key_of a) = false -> listed_before a b.
Proof.
  unfold tuple_lt, key_of, listed_before. cbn [fst snd].
  destruct (String.eqb_spec (scheduled_for b) (scheduled_for a)) as [Heq|Hne].
  - intros H. right. split; [symmetry; exact Heq|]. apply Z.ltb_ge, H.
  - intros H. left.
    destruct (str_lt_total (scheduled_for a) (scheduled_for b))
      as [Hlt|[Heq|Hgt]]; [exact Hlt|congruence|congruence].
Qed.

Lemma lt_listed_before a b :
  tuple_lt (key_of a) (key_of b) = true -> listed_before a b.
Proof.
  unfold tuple_lt, key_of, listed_before. cbn [fst snd].
  destruct (String.eqb_spec (scheduled_for a) (scheduled_for b)) as [Heq|Hne].
  - intros H. right. split; [exact Heq|]. apply Z.ltb_lt in H. lia.
  - intros H. left. exact H.
Qed.

Lemma listed_before_trans a b c :
  listed_before a b -> listed_before b c -> listed_before a c.
Proof.
  unfold listed_before.
  intros [Hab|[Eab Iab]] [Hbc|[Ebc Ibc]].
  - left. exact (str_lt_trans _ _ _ Hab Hbc).
  - left. rewrite <- Ebc. exact Hab.
  - left. rewrite Eab. exact Hbc.
  - right. split; [congruence|lia].
Qed.

Lemma insert_perm (x : Task) l : Permutation (insert key_of x l) (x :: l).
Proof.
  induction l as [|y l IH]; [reflexivity|].
  cbn [insert]. destruct (tuple_lt (key_of y) (key_of x)); [|reflexivity].
  rewrite IH. apply perm_swap.
Qed.

Lemma sorted_perm (l : list Task) : Permutation (sorted key_of l) l.
Proof.
  induction l as [|x l IH]; [reflexivity|].
  cbn [sorted fold_right]. fold (sorted key_of l).
  rewrite insert_perm, IH. reflexivity.
Qed.

Lemma insert_sorted (x : Task) l :
  StronglySorted listed_before l ->
  StronglySorted listed_before (insert key_of x l).
Proof.
  induction l as [|y l IH]; intros Hs.
  - cbn. constructor; constructor.
  - cbn [insert]. apply StronglySorted_inv in Hs. destruct Hs as [Hs Hall].
    destruct (tuple_lt (key_of y) (key_of x)) eqn:Hlt.
    + constructor; [exact (IH Hs)|].
      apply (Permutation_Forall (Permutation_sym (insert_perm x l))).
      constructor; [exact (lt_listed_before _ _ Hlt)|exact Hall].
    + assert (Hxy := not_lt_listed_before _ _ Hlt).
      constructor; [constructor; assumption|].
      constructor; [exact Hxy|].
      eapply Forall_impl; [|exact Hall].
      intros z Hyz. exact (listed_before_trans _ _ _ Hxy Hyz).
Qed.

Lemma sorted_sorted (l : list Task) :
  StronglySorted listed_before (sorted key_of l).
Proof.
  induction l as [|x l IH]; [constructor|].
  cbn [sorted fold_right]. apply insert_sorted, IH.
Qed.

(** *** Listing *)

Lemma filter_twice {A} (f g : A -> bool) l :
  filter f (filter g l) = filter (fun x => g x && f x) l.
Proof.
  induction l as [|x l IH]; [reflexivity|].
  cbn [filter]. destruct (g x); cbn [andb filter]; rewrite IH; reflexivity.
Qed.

Lemma filter_all {A} (f : A -> bool) l :
  (forall x, f x = true) -> filter f l = l.
Proof.
  intros H. induction l as [|x l IH]; [reflexivity|].
  cbn [filter]. rewrite H, IH. reflexivity.
Qed.

Lemma list_tasks_stored disk tasks date show_all state :
  stored disk tasks ->
  list_tasks date show_all state disk
  = (Ok (sorted key_of (filter (selected date show_all state) tasks)), disk).
Proof.
  intros H. unfold list_tasks, bind, ret. rewrite (load_stored _ _ H).
  do 2 f_equal. f_equal. unfold selected.
  destruct show_all, state as [c|]; cbn [negb orb matches_state].
  - reflexivity.
  - symmetry. apply filter_all. reflexivity.
  - rewrite filter_twice. reflexivity.
  - apply filter_ext. intros task. rewrite andb_true_r. reflexivity.
Qed.

(** C5: [list_tasks] returns the tasks of the stored collection which
    match the date, unless [show_all], and which match the completion
    state when one is asked for, in ascending order of date then id,
    whatever their order in the file. *)
Theorem list_tasks_filters_and_sorts
    (disk : store) (tasks : list Task) (date : option string)
    (show_all : bool) (state : option bool)
    (Hstored : stored disk tasks) :
  exists shown,
    list_tasks date show_all state disk = (Ok shown, disk)
    /\ Permutation shown
         (filter (fun task =>
                    (if show_all then true else matches_date task date)
                    && match state with
                       | None => true
                       | Some _ => matches_state task state
                       end)
                 tasks)
    /\ StronglySorted listed_before shown.
Proof.
  eexists. split; [apply list_tasks_stored, Hstored|].
  split; [|apply sorted_sorted].
  rewrite sorted_perm.
  erewrite filter_ext; [reflexivity|].
  intros task. unfold selected. destruct show_all, state; reflexivity.
Qed.

(** *** Removal *)

(** C8, as amended: when the ids of the stored collection are pairwise
    distinct, after [remove_task id] has succeeded the listing of all
    tasks, with no completion filter, holds no task with this id. *)
Theorem removed_id_not_listed
    (disk : store) (tasks : list Task) (id : Z) (date : option string)
    (Hstored : stored disk tasks)
    (Hin : In id (map task_id tasks))
    (Hdistinct : NoDup (map task_id tasks)) :
  exists removed disk' shown,
    remove_task id disk = (Ok removed, disk')
    /\ task_id removed = id
    /\ list_tasks date true None disk' = (Ok shown, disk')
    /\ ~ In id (map task_id shown).
Proof.
  destruct (split_first id tasks Hin) as (before & task & after & -> & Hnot & Hid).
  exists task, (file_of (before ++ after)),
    (sorted key_of (filter (selected date true None) (before ++ after))).
  split; [apply remove_task_hit; assumption|].
  split; [exact Hid|].
  split; [apply list_tasks_stored, stored_file_of|].
  rewrite map_app in Hdistinct. cbn [map] in Hdistinct.
  apply NoDup_remove_2 in Hdistinct. rewrite Hid, <- map_app in Hdistinct.
  intros Hshown. apply Hdistinct.
  apply in_map_iff in Hshown. destruct Hshown as (t & Ht & Hshown).
  apply in_map_iff. exists t. split; [exact Ht|].
  apply (Permutation_in _ (sorted_perm _)) in Hshown.
  apply filter_In in Hshown. tauto.
Qed.

(** *** The pattern of dates *)

Lemma firstn_prefix {A} (pre rest : list A) :
  firstn (List.length (pre ++ rest) - List.length rest) (pre ++ rest) = pre.
Proof.
  rewrite length_app.
  replace (List.length pre + List.length rest - List.length rest)%nat
    with (List.length pre + 0)%nat by lia.
  rewrite firstn_app_2. cbn. apply app_nil_r.
Qed.

Lemma rmatch_sound {R} (r : regex) : forall s (k : list ascii -> option R) x,
  rmatch r s k = Some x ->
  exists pre rest, s = pre ++ rest /\ matches r pre /\ k rest = Some x.
Proof.
  induction r as [p|a IHa b IHb|a IHa b IHb]; intros s k x H; cbn [rmatch] in H.
  - destruct s as [|c rest]; [discriminate|].
    destruct (p c) eqn:Hp; [|discriminate].
    exists [c], rest. repeat split; [constructor; exact Hp|exact H].
  - apply IHa in H. destruct H as (pre1 & mid & -> & Ha & H).
    apply IHb in H. destruct H as (pre2 & rest & -> & Hb & H).
    exists (pre1 ++ pre2), rest. rewrite <- app_assoc.
    repeat split; [constructor; assumption|exact H].
  - destruct (rmatch a s k) as [y|] eqn:Ha.
    + injection H as ->. apply IHa in Ha.
      destruct Ha as (pre & rest & -> & Ha & Hk).
      exists pre, rest. repeat split; [apply matches_alt_l, Ha|exact Hk].
    + apply IHb in H. destruct H as (pre & rest & -> & Hb & Hk).
      exists pre, rest. repeat split; [apply matches_alt_r, Hb|exact Hk].
Qed.

Lemma group_sound {R} (r : regex) s
    (k : list ascii -> list ascii -> option R) x :
  group r s k = Some x ->
  exists pre rest, s = pre ++ rest /\ matches r pre /\ k pre rest = Some x.
Proof.
  unfold group. intros H. apply rmatch_sound in H.
  destruct H as (pre & rest & -> & Hm & Hk).
  rewrite firstn_prefix in Hk. exists pre, rest. auto.
Qed.

Lemma matches_lit c s : matches (lit c) s -> s = [c].
Proof.
  unfold lit. intros H. inversion H as [p c' Hp| | |]; subst.
  apply Ascii.eqb_eq in Hp. subst. reflexivity.
Qed.

Lemma match_date_fmt_sound s Y m d rest :
  match_date_fmt s = Some (Y, m, d, rest) ->
  s = Y ++ "-"%char :: m ++ "-"%char :: d ++ rest
  /\ matches re_Y Y /\ matches re_m m /\ matches re_d d.
Proof.
  unfold match_date_fmt. intros H.
  apply group_sound in H. destruct H as (Y' & s1 & -> & HY & H).
  apply rmatch_sound in H. destruct H as (dash1 & s2 & -> & Hd1 & H).
  apply group_sound in H. destruct H as (m' & s3 & -> & Hm & H).
  apply rmatch_sound in H. destruct H as (dash2 & s4 & -> & Hd2 & H).
  apply group_sound in H. destruct H as (d' & rest' & -> & Hd & H).
  injection H as -> -> -> ->.
  apply matches_lit in Hd1, Hd2. subst. auto.
Qed.

Lemma is_digit_inv c :
  is_digit c = true -> exists v, 0 <= v <= 9 /\ c = digit_char v.
Proof.
  unfold is_digit, digit_char. intros H.
  apply andb_prop in H. destruct H as [Hlo Hhi].
  apply Nat.leb_le in Hlo, Hhi.
  exists (digit_value c). unfold digit_value. split; [lia|].
  replace (Z.to_nat (48 + (Z.of_nat (nat_of_ascii c) - 48)))
    with (nat_of_ascii c) by lia.
  symmetry. apply ascii_nat_embedding.
Qed.

Lemma matches_digit s :
  matches digit s -> exists v, 0 <= v <= 9 /\ s = [digit_char v].
Proof.
  unfold digit. intros H. inversion H as [p c Hp| | |]; subst.
  destruct (is_digit_inv c Hp) as (v & Hv & ->). exists v. auto.
Qed.

Lemma matches_range lo hi s :
  matches (range lo hi) s ->
  exists n, In n (seq (nat_of_ascii lo)
                      (S (nat_of_ascii hi) - nat_of_ascii lo))
            /\ s = [ascii_of_nat n].
Proof.
  unfold range. intros H. inversion H as [p c Hp| | |]; subst.
  apply andb_prop in Hp. destruct Hp as [Hlo Hhi].
  apply Nat.leb_le in Hlo, Hhi.
  exists (nat_of_ascii c). split; [apply in_seq; lia|].
  rewrite ascii_nat_embedding. reflexivity.
Qed.

Ltac invert_matches :=
  repeat match goal with
  | H : matches (Alt _ _) _ |- _ => inversion H; subst; clear H
  | H : matches (Seq _ _) _ |- _ => inversion H; subst; clear H
  | H : matches (lit _) _ |- _ => apply matches_lit in H; subst
  | H : matches digit _ |- _ =>
      let v := fresh "v" in let Hv := fresh "Hv" in
      apply matches_digit in H; destruct H as (v & Hv & ->)
  | H : matches (range _ _) _ |- _ =>
      let n := fresh "n" in let Hn := fresh "Hn" in
      apply matches_range in H; destruct H as (n & Hn & ->);
      cbn in Hn; repeat (destruct Hn as [<-|Hn]); try contradiction
  end.

Ltac read_number :=
  match goal with
  | |- exists m, _ /\ int_of_str ?text = Ok m /\ _ =>
      let r := eval vm_compute in (int_of_str text) in
      match r with Ok ?v => exists v end
  end;
  split; [lia|split; [vm_compute; reflexivity|]];
  first [left; reflexivity | right; left; reflexivity
        | right; reflexivity | right; right; reflexivity].

Lemma month_text_inv M :
  matches re_m M ->
  exists m, 1 <= m <= 12
    /\ int_of_str (string_of_list_ascii M) = Ok m
    /\ (string_of_list_ascii M = zfill 2 (str_of_int m)
        \/ string_of_list_ascii M = str_of_int m).
Proof.
  unfold re_m. intros H. invert_matches; read_number.
Qed.

Lemma digit_cases v : 0 <= v <= 9 -> In v decimal_digits.
Proof.
  intros H. unfold decimal_digits. cbn [In].
  assert (v = 0 \/ v = 1 \/ v = 2 \/ v = 3 \/ v = 4 \/ v = 5 \/ v = 6
          \/ v = 7 \/ v = 8 \/ v = 9) by lia.
  intuition auto.
Qed.

Lemma day_text_inv D :
  matches re_d D ->
  exists d, 1 <= d <= 31
    /\ int_of_str (string_of_list_ascii D) = Ok d
    /\ (string_of_list_ascii D = zfill 2 (str_of_int d)
        \/ string_of_list_ascii D = str_of_int d
        \/ string_of_list_ascii D = " " ++ str_of_int d)%string.
Proof.
  unfold re_d. intros H. invert_matches;
    try (apply digit_cases in Hv; cbn in Hv;
         repeat (destruct Hv as [<-|Hv]); try contradiction);
    read_number.
Qed.

Lemma reads_as_true r n : reads_as r n = true -> r = Ok n.
Proof.
  destruct r as [v|e]; cbn; [|discriminate].
  intros H. apply Z.eqb_eq in H. subst. reflexivity.
Qed.

Lemma year_texts_checked :
  forallb (fun a => forallb (fun b => forallb (fun c => forallb (fun d =>
    year_text_agrees a b c d)
    decimal_digits) decimal_digits) decimal_digits) decimal_digits = true.
Proof. vm_compute. reflexivity. Qed.

Lemma months_days_checked :
  forallb (fun m => forallb (fun d => month_day_agrees m d)
                            (map Z.of_nat (seq 1 31)))
          (map Z.of_nat (seq 1 12)) = true.
Proof. vm_compute. reflexivity. Qed.

Lemma year_text_of_digits a b c d :
  0 <= a <= 9 -> 0 <= b <= 9 -> 0 <= c <= 9 -> 0 <= d <= 9 ->
  zfill 4 (str_of_int (four_digit_value a b c d))
  = string_of_list_ascii (digits4 a b c d)
  /\ int_of_str (string_of_list_ascii (digits4 a b c d))
     = Ok (four_digit_value a b c d).
Proof.
  intros Ha Hb Hc Hd.
  assert (H := proj1 (forallb_forall _ _) year_texts_checked
                     a (digit_cases a Ha)).
  assert (H0 := proj1 (forallb_forall _ _) H b (digit_cases b Hb)).
  assert (H1 := proj1 (forallb_forall _ _) H0 c (digit_cases c Hc)).
  assert (H2 := proj1 (forallb_forall _ _) H1 d (digit_cases d Hd)).
  clear H H0 H1. cbv beta in H2.
  apply andb_prop in H2. destruct H2 as [Htext Hint].
  split; [apply String.eqb_eq, Htext|apply reads_as_true, Hint].
Qed.

Lemma year_text_inv Y :
  matches re_Y Y ->
  exists y, 0 <= y <= 9999
    /\ int_of_str (string_of_list_ascii Y) = Ok y
    /\ string_of_list_ascii Y = zfill 4 (str_of_int y).
Proof.
  unfold re_Y. intros H. invert_matches.
  match goal with
  | |- context [[digit_char ?a] ++ [digit_char ?b] ++ [digit_char ?c]
                ++ [digit_char ?d]] =>
      destruct (year_text_of_digits a b c d) as [Htext Hint];
        try assumption;
      exists (four_digit_value a b c d)
  end.
  split; [unfold four_digit_value; lia|].
  split; [exact Hint|symmetry; exact Htext].
Qed.

Lemma year_digits y :
  0 <= y <= 9999 ->
  exists a b c d,
    0 <= a <= 9 /\ 0 <= b <= 9 /\ 0 <= c <= 9 /\ 0 <= d <= 9
    /\ y = four_digit_value a b c d.
Proof.
  intros H. exists (y / 1000), (y / 100 mod 10), (y / 10 mod 10), (y mod 10).
  unfold four_digit_value. repeat split; Z.div_mod_to_equations; lia.
Qed.

Lemma rmatch_ext {R} (r : regex) : forall s (k k' : list ascii -> option R),
  (forall rest, k rest = k' rest) -> rmatch r s k = rmatch r s k'.
Proof.
  induction r as [p|a IHa b IHb|a IHa b IHb]; intros s k k' H; cbn [rmatch].
  - destruct s as [|c rest]; [reflexivity|]. rewrite H. reflexivity.
  - apply IHa. intros rest. apply IHb, H.
  - rewrite (IHa s k k' H), (IHb s k k' H). reflexivity.
Qed.

Lemma rmatch_map {R S} (f : R -> S) (r : regex) :
  forall s (k : list ascii -> option R),
  rmatch r s (fun rest => option_map f (k rest))
  = option_map f (rmatch r s k).
Proof.
  induction r as [p|a IHa b IHb|a IHa b IHb]; intros s k; cbn [rmatch].
  - destruct s as [|c rest]; [reflexivity|]. destruct (p c); reflexivity.
  - rewrite <- IHa. apply rmatch_ext. intros rest. apply IHb.
  - rewrite IHa, IHb. destruct (rmatch a s k); reflexivity.
Qed.

Lemma group_map {R S} (f : R -> S) (r : regex) s
    (k : list ascii -> list ascii -> option R) :
  group r s (fun pre rest => option_map f (k pre rest))
  = option_map f (group r s k).
Proof. unfold group. apply rmatch_map. Qed.

Lemma group_ext {R} (r : regex) s
    (k k' : list ascii -> list ascii -> option R) :
  (forall pre rest, k pre rest = k' pre rest) -> group r s k = group r s k'.
Proof. intros H. unfold group. apply rmatch_ext. intros rest. apply H. Qed.

Lemma group_year {R} a b c d tail
    (k : list ascii -> list ascii -> option R) :
  is_digit a = true -> is_digit b = true ->
  is_digit c = true -> is_digit d = true ->
  group re_Y (a :: b :: c :: d :: tail) k = k [a; b; c; d] tail.
Proof.
  intros Ha Hb Hc Hd. unfold group, re_Y, digit. cbn [rmatch].
  rewrite Ha, Hb, Hc, Hd.
  change (a :: b :: c :: d :: tail) with ([a; b; c; d] ++ tail).
  rewrite firstn_prefix. reflexivity.
Qed.

Lemma match_date_fmt_year a b c d tail :
  is_digit a = true -> is_digit b = true ->
  is_digit c = true -> is_digit d = true ->
  match_date_fmt (a :: b :: c :: d :: tail)
  = option_map (fun found => let '(m, dd, rest) := found in
                             ([a; b; c; d], m, dd, rest))
               (match_month_day tail).
Proof.
  intros Ha Hb Hc Hd. unfold match_date_fmt, match_month_day.
  rewrite group_year by assumption.
  rewrite <- rmatch_map. apply rmatch_ext. intros s2.
  rewrite <- group_map. apply group_ext. intros m s3.
  rewrite <- rmatch_map. apply rmatch_ext. intros s4.
  rewrite <- group_map. apply group_ext. intros dd rest. reflexivity.
Qed.

Lemma is_digit_digit_char v : 0 <= v <= 9 -> is_digit (digit_char v) = true.
Proof.
  intros H. apply digit_cases in H. cbn in H.
  repeat (destruct H as [<-|H]); try contradiction; reflexivity.
Qed.

Lemma list_ascii_of_string_app (a b : string) :
  list_ascii_of_string (a ++ b)%string
  = list_ascii_of_string a ++ list_ascii_of_string b.
Proof. induction a as [|c a IH]; cbn; [|rewrite IH]; reflexivity. Qed.

Lemma string_of_list_ascii_app (a b : list ascii) :
  string_of_list_ascii (a ++ b)
  = (string_of_list_ascii a ++ string_of_list_ascii b)%string.
Proof. induction a as [|c a IH]; cbn; [|rewrite IH]; reflexivity. Qed.

Lemma valid_date_bounds d :
  valid_date d = true ->
  1 <= year d <= 9999 /\ 1 <= month d <= 12 /\ 1 <= day d <= 31.
Proof.
  unfold valid_date, days_in_month. intros H.
  repeat (apply andb_prop in H; destruct H as [H ?]).
  repeat match goal with
         | H : (_ <=? _) = true |- _ => apply Z.leb_le in H
         end.
  repeat split; try assumption.
  destruct (month d =? 2); [destruct (is_leap (year d)); lia|].
  destruct ((month d =? 4) || (month d =? 6) || (month d =? 9)
            || (month d =? 11))%bool; lia.
Qed.

Lemma in_range_of_nats v n : 1 <= v <= Z.of_nat n ->
  In v (map Z.of_nat (seq 1 n)).
Proof.
  intros H. apply in_map_iff. exists (Z.to_nat v).
  split; [lia|]. apply in_seq. lia.
Qed.

(** [strptime] reads back the date [strftime] wrote. *)
Lemma strptime_strftime d :
  valid_date d = true -> strptime (strftime d) = Ok d.
Proof.
  intros Hvalid. destruct (valid_date_bounds d Hvalid) as (Hy & Hm & Hd).
  destruct d as [y m dd]. cbn [year month day] in *.
  destruct (year_digits y) as (a & b & c & e & Ha & Hb & Hc & He & ->);
    [lia|].
  destruct (year_text_of_digits a b c e Ha Hb Hc He) as [Htext Hint].
  assert (Hmd := proj1 (forallb_forall _ _) months_days_checked
                       m (in_range_of_nats m 12 Hm)).
  assert (Hmd' := proj1 (forallb_forall _ _) Hmd
                        dd (in_range_of_nats dd 31 Hd)).
  clear Hmd. cbv beta in Hmd'. unfold month_day_agrees in Hmd'.
  unfold strptime, strftime. cbn [year month day].
  rewrite Htext. rewrite !list_ascii_of_string_app.
  rewrite list_ascii_of_string_of_list_ascii.
  unfold digits4 at 1. cbn [app list_ascii_of_string].
  rewrite match_date_fmt_year by (apply is_digit_digit_char; assumption).
  destruct (match_month_day _) as [[[M D] rest]|]; [|discriminate].
  destruct rest; [|discriminate].
  apply andb_prop in Hmd'. destruct Hmd' as [HM HD].
  apply reads_as_true in HM, HD.
  cbn [option_map]. fold (digits4 a b c e).
  rewrite Hint, HM, HD. cbn [rbind]. rewrite Hvalid. reflexivity.
Qed.

(** What [strptime] accepts is one of the spellings of a date. *)
Lemma strptime_inv value d :
  strptime value = Ok d -> valid_date d = true /\ In value (spellings d).
Proof.
  unfold strptime.
  destruct (match_date_fmt _) as [[[[Y M] D] rest]|] eqn:Hmatch;
    [|discriminate].
  destruct rest; [|discriminate].
  apply match_date_fmt_sound in Hmatch. destruct Hmatch as (Hs & HY & HM & HD).
  destruct (year_text_inv Y HY) as (y & _ & Hy & HYtext).
  destruct (month_text_inv M HM) as (m & _ & Hm & HMtext).
  destruct (day_text_inv D HD) as (dd & _ & Hdd & HDtext).
  rewrite Hy, Hm, Hdd. cbn [rbind].
  destruct (valid_date _) eqn:Hvalid; [|discriminate].
  intros H. injection H as <-. split; [exact Hvalid|].
  rewrite <- (string_of_list_ascii_of_string value), Hs.
  rewrite app_nil_r, string_of_list_ascii_app.
  cbn [string_of_list_ascii]. rewrite string_of_list_ascii_app.
  cbn [string_of_list_ascii]. rewrite HYtext.
  unfold spellings. cbn [year month day flat_map map app In].
  destruct HMtext as [-> | ->]; destruct HDtext as [-> | [-> | ->]];
    cbn [append]; tauto.
Qed.

Lemma strptime_not_today value d :
  strptime value = Ok d -> String.eqb (lower value) "today" = false.
Proof.
  unfold strptime.
  destruct (match_date_fmt _) as [[[[Y M] D] rest]|] eqn:Hmatch;
    [|discriminate].
  intros _. apply match_date_fmt_sound in Hmatch.
  destruct Hmatch as (Hs & HY & _). unfold re_Y in HY. invert_matches.
  destruct value as [|c value]; [discriminate|].
  cbn [list_ascii_of_string app] in Hs. injection Hs as -> _.
  match goal with
  | H : 0 <= ?v <= 9 |- context [digit_char ?v] =>
      apply digit_cases in H; cbn in H;
      repeat (destruct H as [<-|H]); try contradiction; reflexivity
  end.
Qed.

(** *** The date argument *)

Lemma parse_date_today value :
  lower value = "today" -> parse_date value = Ok (strftime today).
Proof. unfold parse_date. intros ->. reflexivity. Qed.

Lemma parse_date_explicit d :
  valid_date d = true -> parse_date (strftime d) = Ok (strftime d).
Proof.
  intros Hvalid. unfold parse_date.
  assert (H := strptime_strftime d Hvalid).
  rewrite (strptime_not_today _ _ H), H. reflexivity.
Qed.

Lemma parse_date_inv value r :
  parse_date value = Ok r ->
  (lower value = "today" /\ r = strftime today)
  \/ (r = value /\ exists d, valid_date d = true /\ In value (spellings d)).
Proof.
  unfold parse_date.
  destruct (String.eqb_spec (lower value) "today") as [Heq|_].
  - intros H. injection H as <-. left. auto.
  - destruct (strptime value) as [d|e] eqn:Hd; [|discriminate].
    intros H. injection H as <-. right. split; [reflexivity|].
    exists d. apply strptime_inv, Hd.
Qed.

Lemma parse_date_error value e :
  parse_date value = Raise e -> exists msg, e = ArgumentTypeError msg.
Proof.
  unfold parse_date. destruct (String.eqb _ _); [discriminate|].
  destruct (strptime value); [discriminate|].
  intros H. injection H as <-. eexists. reflexivity.
Qed.

(** C2, as amended: the date argument is accepted when, in lower case,
    it is [today], and the result is then the date of the day written
    YYYY-MM-DD; it is accepted and returned as it is when it is a date of
    the calendar written YYYY-MM-DD with all its zeros.  An argument of
    ASCII characters which is accepted is [today] in some case of letters
    or a spelling of a date of the calendar as year, month and day.  A
    refusal is the [ArgumentTypeError] of an invalid date, and the command
    then leaves by the parser, with code 2 and the file as it was. *)
Theorem parse_date_accepts (value : string) :
  (lower value = "today" -> parse_date value = Ok (strftime today))
  /\ (forall d, valid_date d = true -> value = strftime d ->
                parse_date value = Ok value)
  /\ (forall r, is_ascii value = true -> parse_date value = Ok r ->
        lower value = "today"
        \/ exists d, valid_date d = true /\ In value (spellings d))
  /\ (forall e, parse_date value = Raise e ->
        (exists msg, e = ArgumentTypeError msg)
        /\ forall text all done pending disk,
             main (ArgvAdd text (Some value)) disk
             = {| ended := SystemExit 2; stdout := []; stderr := [];
                  disk_after := disk |}
             /\ main (ArgvList (Some value) all done pending) disk
                = {| ended := SystemExit 2; stdout := []; stderr := [];
                     disk_after := disk |}).
Proof.
  split; [apply parse_date_today|].
  split; [intros d Hvalid ->; apply parse_date_explicit, Hvalid|].
  split.
  - intros r _ H. apply parse_date_inv in H.
    destruct H as [[H _]|[_ H]]; [left; exact H|right; exact H].
  - intros e H. split; [exact (parse_date_error value e H)|].
    intros text all done pending disk.
    unfold main, parse_args, date_option. rewrite H. split; reflexivity.
Qed.

(** *** Defaults of the command line *)

Lemma parse_date_default :
  valid_date today = true ->
  date_option None = Ok (strftime today).
Proof. intros H. unfold date_option. apply parse_date_explicit, H. Qed.

(** C10: without [--date], the date of [list] and of [add] is the date of
    the day.  So [list] alone, without [--all], shows the stored tasks
    scheduled for the day and no other task, and [add] alone schedules
    the new task for the day. *)
Theorem bare_commands_default_to_today
    (disk : store) (tasks : list Task) (text : string)
    (Hvalid : valid_date today = true)
    (Hyear : 1000 <= year today)
    (Hstored : stored disk tasks) :
  parse_args (ArgvList None false false false)
  = Namespace (ListArgs (strftime today) false false false)
  /\ parse_args (ArgvAdd text None)
     = Namespace (AddArgs text (strftime today))
  /\ exists shown,
       main (ArgvList None false false false) disk
       = {| ended := Returned 0; stdout := [render_tasks shown];
            stderr := []; disk_after := disk |}
       /\ StronglySorted listed_before shown
       /\ (forall task,
             In task shown
             <-> In task tasks /\ scheduled_for task = strftime today)
       /\ exists new_task,
            task_id new_task = next_task_id tasks
            /\ description new_task = text
            /\ scheduled_for new_task = strftime today
            /\ completed new_task = false
            /\ disk_after (main (ArgvAdd text None) disk)
               = file_of (tasks ++ [new_task])
            /\ ended (main (ArgvAdd text None) disk) = Returned 0.
Proof.
  unfold main, parse_args. rewrite (parse_date_default Hvalid).
  split; [reflexivity|]. split; [reflexivity|].
  exists (sorted key_of
            (filter (selected (Some (strftime today)) false None) tasks)).
  cbn [andb command]. unfold bind, ret.
  rewrite (list_tasks_stored disk tasks _ false None Hstored).
  split; [reflexivity|]. split; [apply sorted_sorted|]. split.
  - intros task. split.
    + intros H. apply (Permutation_in _ (sorted_perm _)) in H.
      apply filter_In in H. destruct H as [H Hsel]. split; [exact H|].
      unfold selected in Hsel. cbn in Hsel. rewrite andb_true_r in Hsel.
      apply String.eqb_eq, Hsel.
    + intros [H Hdate].
      apply (Permutation_in _ (Permutation_sym (sorted_perm _))).
      apply filter_In. split; [exact H|].
      unfold selected. cbn. rewrite andb_true_r.
      apply String.eqb_eq, Hdate.
  - rewrite (add_task_stored disk tasks text (strftime today) Hstored).
    eexists. repeat split; reflexivity.
Qed.

(** *** Records which are not tasks *)

(** C1: what the program does on a file whose record lacks [task_id], or
    holds under [task_id] a value [int] refuses: [load_tasks] raises a
    [KeyError], a [ValueError] or a [TypeError], which is not a
    [TaskError], and the exception goes through [main]; nothing is
    printed on the error stream by the program. *)
Theorem malformed_record_escapes_main :
  let no_id := JObj [("description", JStr "x");
                     ("scheduled_for", JStr "2024-05-01")] in
  let bad_id := fun v => JObj [("task_id", v); ("description", JStr "x");
                               ("scheduled_for", JStr "2024-05-01")] in
  let disk_of := fun record => Some (Parsed (JList [record])) in
  from_dict no_id = Raise (KeyError "task_id")
  /\ from_dict (bad_id (JStr "abc")) = Raise ValueError
  /\ from_dict (bad_id JNull) = Raise TypeError
  /\ load_tasks (disk_of no_id)
     = (Raise (KeyError "task_id"), disk_of no_id)
  /\ (forall undone,
        main (ArgvDone "1" undone) (disk_of no_id)
        = {| ended := Uncaught (KeyError "task_id"); stdout := [];
             stderr := []; disk_after := disk_of no_id |})
  /\ main (ArgvRemove "1") (disk_of no_id)
     = {| ended := Uncaught (KeyError "task_id"); stdout := [];
          stderr := []; disk_after := disk_of no_id |}
  /\ main (ArgvRemove "1") (disk_of (bad_id (JStr "abc")))
     = {| ended := Uncaught ValueError; stdout := [];
          stderr := []; disk_after := disk_of (bad_id (JStr "abc")) |}.
Proof.
  cbv zeta. repeat split; reflexivity.
Qed.

(** ** Further properties *)

(** *** Decimal texts *)

Lemma lstrip_no_space s :
  Forall (fun c => is_space c = false) s -> lstrip s = s.
Proof.
  intros H. destruct H as [|c s Hc _]; [reflexivity|].
  cbn [lstrip]. rewrite Hc. reflexivity.
Qed.

Lemma strip_no_space s :
  Forall (fun c => is_space c = false) s -> strip s = s.
Proof.
  intros H. unfold strip. rewrite (lstrip_no_space s H).
  rewrite (lstrip_no_space (rev s) (Forall_rev H)). apply rev_involutive.
Qed.

Lemma digits_of_uint d :
  Forall (fun c => is_digit c = true)
         (list_ascii_of_string (NilEmpty.string_of_uint d)).
Proof.
  induction d; cbn [NilEmpty.string_of_uint list_ascii_of_string];
    constructor; (reflexivity || assumption).
Qed.

Lemma digit_no_space c : is_digit c = true -> is_space c = false.
Proof.
  unfold is_digit, is_space. intros H.
  apply andb_prop in H. destruct H as [Hlo Hhi].
  apply Nat.leb_le in Hlo, Hhi.
  apply orb_false_intro; apply andb_false_intro2; apply Nat.leb_gt; lia.
Qed.

Lemma int_digits_acc d : forall acc,
  int_digits (list_ascii_of_string (NilEmpty.string_of_uint d))
             (Z.pos acc) true
  = Some (Z.pos (Pos.of_uint_acc d acc)).
Proof.
  induction d; intros acc;
    cbn [NilEmpty.string_of_uint list_ascii_of_string int_digits
         Pos.of_uint_acc]; [reflexivity|..];
    match goal with
    | |- context [is_digit ?c] =>
        change (is_digit c) with true; cbv iota;
        let v := eval vm_compute in (digit_value c) in
        change (digit_value c) with v
    end;
    match goal with
    | |- int_digits _ ?a true = Some (Z.pos (Pos.of_uint_acc _ ?b)) =>
        replace a with (Z.pos b) by lia
    end; apply IHd.
Qed.

Lemma int_digits_uint d :
  int_digits (list_ascii_of_string (NilEmpty.string_of_uint d)) 0 true
  = Some (Z.of_N (Pos.of_uint d)).
Proof.
  induction d;
    cbn [NilEmpty.string_of_uint list_ascii_of_string int_digits Pos.of_uint];
    [reflexivity|..];
    match goal with
    | |- context [is_digit ?c] =>
        change (is_digit c) with true; cbv iota;
        let v := eval vm_compute in (10 * 0 + digit_value c) in
        change (10 * 0 + digit_value c) with v
    end;
    [exact IHd|..]; apply (int_digits_acc d).
Qed.

Lemma int_digits_zeros k : forall s,
  int_digits (repeat "0"%char k ++ s) 0 true = int_digits s 0 true.
Proof.
  induction k as [|k IH]; intros s; [reflexivity|].
  cbn [repeat app int_digits].
  change (is_digit "0") with true. cbv iota.
  change (10 * 0 + digit_value "0") with 0. apply IH.
Qed.

Lemma int_digits_start s :
  Forall (fun c => is_digit c = true) s -> s <> [] ->
  int_digits s 0 false = int_digits s 0 true.
Proof.
  intros H Hne. destruct H as [|c s Hc _]; [contradiction|].
  cbn [int_digits]. rewrite Hc. reflexivity.
Qed.

Lemma unsigned_head s :
  Forall (fun c => is_digit c = true) s ->
  match s with
  | "-"%char :: r => option_map Z.opp (int_digits r 0 false)
  | "+"%char :: r => int_digits r 0 false
  | _ => int_digits s 0 false
  end = int_digits s 0 false.
Proof.
  intros H. destruct H as [|c s Hc _]; [reflexivity|].
  destruct (Ascii.eqb_spec c "-") as [->|Hm]; [discriminate Hc|].
  destruct (Ascii.eqb_spec c "+") as [->|Hp]; [discriminate Hc|].
  destruct c as [[] [] [] [] [] [] [] []]; try reflexivity; congruence.
Qed.

Lemma chars_of_nat_text n :
  0 <= n ->
  let s := list_ascii_of_string (str_of_int n) in
  Forall (fun c => is_digit c = true) s /\ s <> []
  /\ int_digits s 0 true = Some n.
Proof.
  intros Hn. unfold str_of_int. destruct n as [|p|p]; [| |lia].
  - cbn. repeat split; [repeat constructor|discriminate].
  - cbn [Z.to_int NilZero.string_of_int]. cbv zeta.
    assert (Hnil := Unsigned.to_uint_nonnil p).
    assert (Hval := DecimalPos.Unsigned.of_to p).
    assert (Hdigits := digits_of_uint (Pos.to_uint p)).
    assert (Hint := int_digits_uint (Pos.to_uint p)).
    assert (Htext : NilZero.string_of_uint (Pos.to_uint p)
                    = NilEmpty.string_of_uint (Pos.to_uint p)).
    { destruct (Pos.to_uint p); [contradiction|..]; reflexivity. }
    rewrite Htext, Hint, Hval.
    split; [exact Hdigits|]. split; [|reflexivity].
    destruct (Pos.to_uint p); [contradiction|..]; discriminate.
Qed.

Lemma zfill_chars k s :
  list_ascii_of_string (zfill k s)
  = repeat "0"%char (k - String.length s) ++ list_ascii_of_string s.
Proof.
  unfold zfill. rewrite list_ascii_of_string_app.
  rewrite list_ascii_of_string_of_list_ascii. reflexivity.
Qed.

Lemma padded_chars k n :
  0 <= n ->
  let s := list_ascii_of_string (zfill k (str_of_int n)) in
  Forall (fun c => is_digit c = true) s /\ s <> []
  /\ int_digits s 0 true = Some n.
Proof.
  intros Hn. cbv zeta. rewrite zfill_chars.
  destruct (chars_of_nat_text n Hn) as (Hd & Hne & Hv).
  split; [|split].
  - apply Forall_app. split; [|exact Hd].
    apply Forall_forall. intros c Hc. apply repeat_spec in Hc. subst.
    reflexivity.
  - intros H. apply app_eq_nil in H. destruct H as [_ H]. exact (Hne H).
  - rewrite int_digits_zeros. exact Hv.
Qed.

Lemma int_of_padded k n :
  0 <= n -> int_of_str (zfill k (str_of_int n)) = Ok n.
Proof.
  intros Hn. destruct (padded_chars k n Hn) as (Hd & Hne & Hv).
  unfold int_of_str. rewrite strip_no_space.
  - rewrite (unsigned_head _ Hd), (int_digits_start _ Hd Hne), Hv.
    reflexivity.
  - eapply Forall_impl; [|exact Hd]. apply digit_no_space.
Qed.

Lemma int_of_minus_padded k n :
  0 <= n -> int_of_str ("-" ++ zfill k (str_of_int n)) = Ok (- n).
Proof.
  intros Hn. destruct (padded_chars k n Hn) as (Hd & Hne & Hv).
  unfold int_of_str. cbn [append list_ascii_of_string].
  rewrite strip_no_space.
  - rewrite (int_digits_start _ Hd Hne), Hv. reflexivity.
  - constructor; [reflexivity|].
    eapply Forall_impl; [|exact Hd]. apply digit_no_space.
Qed.

Lemma zfill_zero s : zfill 0 s = s.
Proof. reflexivity. Qed.


(** *** Identifiers on the command line *)

Lemma printed_id_text (n : Z) :
  int_of_str (str_of_int n) = Ok n /\ int_of_str (format_03d n) = Ok n.
Proof.
  split.
  - destruct n as [|p|p].
    + reflexivity.
    + rewrite <- (zfill_zero (str_of_int (Z.pos p))).
      apply int_of_padded. lia.
    + change (str_of_int (Z.neg p))
        with ("-" ++ zfill 0 (str_of_int (Z.pos p)))%string.
      apply (int_of_minus_padded 0 (Z.pos p)). lia.
  - unfold format_03d. destruct (Z.ltb_spec n 0) as [Hneg|Hpos].
    + rewrite int_of_minus_padded by lia. f_equal. lia.
    + apply int_of_padded, Hpos.
Qed.

(** X1: the id the program prints, in a message or in a line of the
    listing, is read back by [int] as the same id, so it can be given to
    [done] and [remove] as it is printed. *)
Theorem printed_id_reads_back (n : Z) (undone : bool)
    (Hlimit : within_digit_limit n) :
  int_of_str (str_of_int n) = Ok n
  /\ int_of_str (format_03d n) = Ok n
  /\ parse_args (ArgvDone (str_of_int n) undone)
     = Namespace (DoneArgs n undone)
  /\ parse_args (ArgvRemove (format_03d n)) = Namespace (RemoveArgs n).
Proof.
  destruct (printed_id_text n) as [Hstr Hfmt].
  unfold parse_args. rewrite Hstr, Hfmt. auto.
Qed.


(** *** What the operations do to the collection *)

Lemma next_task_id_above tasks task :
  In task tasks -> task_id task < next_task_id tasks.
Proof.
  intros Hin. assert (Hspec := next_task_id_spec tasks).
  destruct tasks as [|first rest]; [contradiction|].
  destruct Hspec as (top & _ & Hmax & ->). specialize (Hmax task Hin). lia.
Qed.

(** X2: [add_task] on a stored collection writes this collection with one
    task more at its end: the task it returns, not completed, with the text
    and the date given and an id greater than every id stored. *)
Theorem add_appends_fresh_task
    (disk : store) (tasks : list Task) (text date : string)
    (Hstored : stored disk tasks) :
  exists new_task,
    add_task text date disk = (Ok new_task, file_of (tasks ++ [new_task]))
    /\ stored (file_of (tasks ++ [new_task])) (tasks ++ [new_task])
    /\ description new_task = text
    /\ scheduled_for new_task = date
    /\ completed new_task = false
    /\ forall task, In task tasks -> task_id task < task_id new_task.
Proof.
  eexists. split; [apply (add_task_stored disk tasks text date Hstored)|].
  split; [apply stored_file_of|]. repeat split.
  cbn [task_id]. apply next_task_id_above.
Qed.

(** X3: [remove_task] on an id which is stored returns the first task with
    this id and writes the collection without it; the other tasks, the
    later tasks with the same id among them, stay in their order. *)
Theorem remove_takes_first_only
    (disk : store) (tasks : list Task) (id : Z)
    (Hstored : stored disk tasks) (Hin : In id (map task_id tasks)) :
  exists before task after,
    tasks = before ++ task :: after
    /\ ~ In id (map task_id before)
    /\ task_id task = id
    /\ remove_task id disk = (Ok task, file_of (before ++ after))
    /\ stored (file_of (before ++ after)) (before ++ after).
Proof.
  destruct (split_first id tasks Hin) as (before & task & after & -> & Hnot & Hid).
  exists before, task, after. repeat split; try assumption.
  - apply remove_task_hit; assumption.
  - apply stored_file_of.
Qed.

(** X4: removing the task [add_task] has just returned gives the
    collection of before back, and the next [add_task] returns the same id
    again. *)
Theorem add_then_remove_undoes
    (disk : store) (tasks : list Task) (text date text' date' : string)
    (Hstored : stored disk tasks) :
  exists new_task disk1 again disk2,
    add_task text date disk = (Ok new_task, disk1)
    /\ remove_task (task_id new_task) disk1 = (Ok new_task, file_of tasks)
    /\ add_task text' date' (file_of tasks) = (Ok again, disk2)
    /\ task_id again = task_id new_task.
Proof.
  eexists. eexists. eexists. eexists.
  split; [apply (add_task_stored disk tasks text date Hstored)|]. split.
  - rewrite (remove_task_hit _ _ tasks _ [] (stored_file_of _));
      [rewrite app_nil_r; reflexivity| |reflexivity].
    cbn [task_id]. intros Hin. apply in_map_iff in Hin.
    destruct Hin as (task & Heq & Hin).
    assert (Hlt := next_task_id_above tasks task Hin). lia.
  - split; [apply (add_task_stored _ tasks text' date' (stored_file_of tasks))|].
    reflexivity.
Qed.

(** X5: marking a task a second time with the same state changes nothing:
    the same task is returned and the file stays as the first call left
    it. *)
Theorem update_twice_is_once
    (disk : store) (tasks : list Task) (id : Z) (c : bool)
    (Hstored : stored disk tasks) (Hin : In id (map task_id tasks)) :
  exists updated disk1,
    update_task_state id c disk = (Ok updated, disk1)
    /\ update_task_state id c disk1 = (Ok updated, disk1).
Proof.
  destruct (split_first id tasks Hin) as (before & task & after & -> & Hnot & Hid).
  exists (set_completed task c),
    (file_of (before ++ set_completed task c :: after)).
  split; [apply update_task_state_hit; assumption|].
  apply (update_task_state_hit _ id c before (set_completed task c) after);
    [apply stored_file_of|assumption|assumption].
Qed.

(** *** What the commands leave on the disk *)



Lemma load_tasks_pair disk : load_tasks disk = (fst (load_tasks disk), disk).
Proof.
  rewrite (surjective_pairing (load_tasks disk)) at 1.
  rewrite load_keeps_disk. reflexivity.
Qed.



(** X7: the command [list] never writes: whatever its arguments, the file
    and the way the command ends, the file is as it was. *)
Theorem list_never_writes
    (date : option string) (all done pending : bool) (disk : store) :
  disk_after (main (ArgvList date all done pending) disk) = disk.
Proof.
  unfold main, parse_args.
  destruct (date_option date) as [d|e]; [|reflexivity].
  destruct (done && pending); [reflexivity|].
  unfold command, list_tasks, bind, ret. rewrite load_tasks_pair.
  destruct (fst (load_tasks disk)) as [tasks|e]; [reflexivity|].
  destruct e; reflexivity.
Qed.



(** *** The ids of a session *)









(** *** What [load_tasks] accepts *)

(** X10: a record loads as a task exactly when it is a [dict] which holds
    the keys [task_id], [description] and [scheduled_for], and [int]
    accepts the value of [task_id].  The key [completed] may be missing,
    and what else the record holds does not matter. *)
Theorem from_dict_accepts (raw : json) :
  (exists task, from_dict raw = Ok task)
  <-> exists fields id text date n,
        raw = JObj fields
        /\ dict_get fields "task_id" = Some id
        /\ py_int id = Ok n
        /\ dict_get fields "description" = Some text
        /\ dict_get fields "scheduled_for" = Some date.
Proof.
  unfold from_dict, subscript, dict_get_default. split.
  - intros [task H]. destruct raw as [| | | | |items|fields];
      try discriminate H.
    destruct (dict_get fields "task_id") as [id|] eqn:Hid;
      [|discriminate H].
    cbn [rbind] in H.
    destruct (py_int id) as [n|e] eqn:Hn; [|discriminate H].
    destruct (dict_get fields "description") as [text|] eqn:Htext;
      [|discriminate H].
    destruct (dict_get fields "scheduled_for") as [date|] eqn:Hdate;
      [|discriminate H].
    exists fields, id, text, date, n. repeat split; assumption.
  - intros (fields & id & text & date & n & -> & Hid & Hn & Htext & Hdate).
    rewrite Hid. cbn [rbind]. rewrite Hn, Htext, Hdate. cbn [rbind].
    destruct (dict_get fields "completed"); eexists; reflexivity.
Qed.

(** X11: a record without the key [completed] loads as a task which is not
    completed, and a record whose [task_id] is the decimal text of an
    integer loads with this integer as its id. *)
Theorem from_dict_defaults
    (fields : list (string * json)) (n : Z) (text date : string)
    (Htext : dict_get fields "description" = Some (JStr text))
    (Hdate : dict_get fields "scheduled_for" = Some (JStr date))
    (Hid : dict_get fields "task_id" = Some (JInt n)
           \/ dict_get fields "task_id" = Some (JStr (str_of_int n)))
    (Hlimit : within_digit_limit n)
    (Hflag : dict_get fields "completed" = None) :
  from_dict (JObj fields)
  = Ok {| task_id := n; description := text; scheduled_for := date;
          completed := false |}.
Proof.
  unfold from_dict, subscript, dict_get_default.
  rewrite Htext, Hdate, Hflag.
  destruct Hid as [-> | ->]; cbn [rbind py_int].
  - reflexivity.
  - rewrite (proj1 (printed_id_text n)). reflexivity.
Qed.

(** X12: when the file holds a JSON value which is not a list, the empty
    object and the empty string load as the empty collection, and every
    other value makes [load_tasks] raise a [TypeError]. *)
Theorem load_of_non_list (data : json)
    (Hnot_list : forall items, data <> JList items) :
  fst (load_tasks (Some (Parsed data)))
  = match data with
    | JObj [] => Ok []
    | JStr EmptyString => Ok []
    | _ => Raise TypeError
    end.
Proof.
  unfold load_tasks. cbn [fst].
  destruct data as [| | | |s|items|fields]; try reflexivity.
  - destruct s; reflexivity.
  - contradiction (Hnot_list items). reflexivity.
  - destruct fields as [|[k v] fields]; reflexivity.
Qed.

(** X13: [load_tasks] raises the exception of the first record which does
    not load; the records after it are not looked at. *)
Theorem load_stops_at_first_bad_record
    (good : list Task) (bad : json) (others : list json) (e : exn)
    (Hbad : from_dict bad = Raise e) :
  let disk := Some (Parsed (JList (map asdict good ++ bad :: others))) in
  load_tasks disk = (Raise e, disk).
Proof.
  cbv zeta. unfold load_tasks. cbn [py_iter rbind]. f_equal.
  induction good as [|task good IH]; cbn [map app comprehension].
  - rewrite Hbad. reflexivity.
  - rewrite from_dict_asdict. cbn [rbind]. rewrite IH. reflexivity.
Qed.


(** *** The listing after a change *)

Lemma in_sorted (task : Task) tasks :
  In task (sorted key_of tasks) <-> In task tasks.
Proof.
  split; intros H.
  - exact (Permutation_in _ (sorted_perm tasks) H).
  - exact (Permutation_in _ (Permutation_sym (sorted_perm tasks)) H).
Qed.

(** X14: the task [add_task] has just returned is in the listing of its
    date, and in the listing of all dates, when no state is asked for or
    when the tasks which are not completed are asked for. *)
Theorem added_task_is_listed
    (disk : store) (tasks : list Task) (text date : string)
    (show_all pending_only : bool)
    (Hstored : stored disk tasks) :
  exists new_task disk1 shown,
    add_task text date disk = (Ok new_task, disk1)
    /\ list_tasks (Some date) show_all
                  (if pending_only then Some false else None) disk1
       = (Ok shown, disk1)
    /\ In new_task shown.
Proof.
  eexists. eexists. eexists.
  split; [apply (add_task_stored disk tasks text date Hstored)|].
  split; [apply list_tasks_stored, stored_file_of|].
  apply in_sorted, filter_In. split; [apply in_or_app; right; left; reflexivity|].
  unfold selected, matches_date, matches_state. cbn [scheduled_for completed].
  rewrite String.eqb_refl, orb_true_r.
  destruct pending_only; reflexivity.
Qed.

(** X15: when the stored ids are pairwise distinct, after [done id] the
    listing of the tasks which are not completed holds no task with this
    id, and the listing of all the completed tasks holds the task which
    was marked. *)
Theorem done_task_leaves_pending_listing
    (disk : store) (tasks : list Task) (id : Z) (date : option string)
    (show_all : bool)
    (Hstored : stored disk tasks)
    (Hin : In id (map task_id tasks))
    (Hdistinct : NoDup (map task_id tasks)) :
  exists marked disk1 pending done,
    update_task_state id true disk = (Ok marked, disk1)
    /\ list_tasks date show_all (Some false) disk1 = (Ok pending, disk1)
    /\ ~ In id (map task_id pending)
    /\ list_tasks date true (Some true) disk1 = (Ok done, disk1)
    /\ In marked done.
Proof.
  destruct (split_first id tasks Hin) as (before & task & after & -> & Hnot & Hid).
  eexists. eexists. eexists. eexists.
  split; [apply (update_task_state_hit disk id true before task after);
          assumption|].
  split; [apply list_tasks_stored, stored_file_of|].
  split; [|split; [apply list_tasks_stored, stored_file_of|]].
  - intros Hshown. apply in_map_iff in Hshown.
    destruct Hshown as (shown & Hsame & Hshown).
    apply in_sorted, filter_In in Hshown. destruct Hshown as [Hmember Hsel].
    rewrite map_app in Hdistinct. cbn [map] in Hdistinct.
    apply NoDup_remove_2 in Hdistinct. rewrite Hid in Hdistinct.
    apply in_app_or in Hmember. destruct Hmember as [Hb|[<-|Ha]].
    + apply Hdistinct, in_or_app. left. rewrite <- Hsame. apply in_map, Hb.
    + unfold selected in Hsel. cbn in Hsel. rewrite andb_false_r in Hsel.
      discriminate Hsel.
    + apply Hdistinct, in_or_app. right. rewrite <- Hsame. apply in_map, Ha.
  - apply in_sorted, filter_In. split; [apply in_or_app; right; left; reflexivity|].
    reflexivity.
Qed.

(** *** The order of the listing, again *)

Lemma tuple_lt_same_key (a b : Task) :
  same_key a b = true -> tuple_lt (key_of b) (key_of a) = false.
Proof.
  unfold same_key, tuple_lt, key_of. cbn [fst snd]. intros H.
  apply andb_prop in H. destruct H as [Hdate Hid].
  apply String.eqb_eq in Hdate. apply Z.eqb_eq in Hid.
  rewrite Hdate, Hid, String.eqb_refl. apply Z.ltb_irrefl.
Qed.

Lemma same_key_shared (k x y : Task) :
  same_key k x = true -> same_key k y = true -> same_key x y = true.
Proof.
  unfold same_key. intros Hx Hy.
  apply andb_prop in Hx, Hy. destruct Hx as [Hx1 Hx2], Hy as [Hy1 Hy2].
  apply String.eqb_eq in Hx1, Hy1. apply Z.eqb_eq in Hx2, Hy2.
  rewrite <- Hx1, <- Hx2, Hy1, Hy2, String.eqb_refl, Z.eqb_refl. reflexivity.
Qed.

Lemma filter_insert (k x : Task) l :
  filter (same_key k) (insert key_of x l)
  = if same_key k x then x :: filter (same_key k) l
    else filter (same_key k) l.
Proof.
  induction l as [|y l IH].
  - cbn. destruct (same_key k x); reflexivity.
  - cbn [insert]. destruct (tuple_lt (key_of y) (key_of x)) eqn:Hlt.
    + cbn [filter]. rewrite IH.
      destruct (same_key k x) eqn:Hx; [|reflexivity].
      destruct (same_key k y) eqn:Hy; [|reflexivity].
      rewrite (tuple_lt_same_key x y (same_key_shared k x y Hx Hy)) in Hlt.
      discriminate Hlt.
    + cbn [filter]. destruct (same_key k x); reflexivity.
Qed.

(** X16: the sort of the listing is stable: the tasks which have the same
    date and the same id are listed in the order of the file. *)
Theorem sorted_keeps_file_order (k : Task) (tasks : list Task) :
  filter (same_key k) (sorted key_of tasks) = filter (same_key k) tasks.
Proof.
  induction tasks as [|x tasks IH]; [reflexivity|].
  cbn [sorted fold_right]. fold (sorted key_of tasks).
  rewrite filter_insert, IH. reflexivity.
Qed.

Lemma listed_before_antisym a b :
  listed_before a b -> listed_before b a -> key_of a = key_of b.
Proof.
  unfold listed_before, key_of.
  intros [Hab|[Eab Iab]] [Hba|[Eba Iba]].
  - assert (H := str_lt_trans _ _ _ Hab Hba).
    rewrite str_lt_irrefl in H. discriminate H.
  - rewrite Eba, str_lt_irrefl in Hab. discriminate Hab.
  - rewrite Eab, str_lt_irrefl in Hba. discriminate Hba.
  - f_equal; [exact Eab|lia].
Qed.

Lemma sorted_lists_agree (l1 : list Task) : forall l2,
  StronglySorted listed_before l1 -> StronglySorted listed_before l2 ->
  Permutation l1 l2 -> NoDup (map key_of l1) -> l1 = l2.
Proof.
  induction l1 as [|a l1 IH]; intros l2 Hs1 Hs2 Hperm Hkeys.
  - apply Permutation_nil in Hperm. symmetry. exact Hperm.
  - destruct l2 as [|b l2];
      [apply Permutation_sym, Permutation_nil in Hperm; discriminate Hperm|].
    apply StronglySorted_inv in Hs1, Hs2.
    destruct Hs1 as [Hs1 Ha], Hs2 as [Hs2 Hb].
    rewrite Forall_forall in Ha, Hb.
    assert (Hab : a = b).
    { assert (Hina : In a (b :: l2))
        by (apply (Permutation_in _ Hperm); left; reflexivity).
      assert (Hinb : In b (a :: l1))
        by (apply (Permutation_in _ (Permutation_sym Hperm)); left;
            reflexivity).
      destruct Hina as [Heq|Hina]; [symmetry; exact Heq|].
      destruct Hinb as [Heq|Hinb]; [exact Heq|].
      assert (Hkey := listed_before_antisym a b (Ha b Hinb) (Hb a Hina)).
      cbn [map] in Hkeys. apply NoDup_cons_iff in Hkeys.
      destruct Hkeys as [Hfresh _]. contradiction Hfresh.
      rewrite Hkey. apply in_map, Hinb. }
    subst b. f_equal. apply IH; try assumption.
    + exact (Permutation_cons_inv Hperm).
    + cbn [map] in Hkeys. apply NoDup_cons_iff in Hkeys. tauto.
Qed.

(** X17: when no two stored tasks have both the same date and the same
    id, the listing does not depend on the order of the tasks in the file:
    two files which hold the same tasks give the same listing. *)
Theorem listing_ignores_file_order
    (disk disk' : store) (tasks tasks' : list Task)
    (date : option string) (show_all : bool) (state : option bool)
    (Hstored : stored disk tasks) (Hstored' : stored disk' tasks')
    (Hsame : Permutation tasks tasks')
    (Hkeys : NoDup (map key_of tasks)) :
  fst (list_tasks date show_all state disk)
  = fst (list_tasks date show_all state disk').
Proof.
  rewrite (list_tasks_stored disk tasks _ _ _ Hstored).
  rewrite (list_tasks_stored disk' tasks' _ _ _ Hstored'). cbn [fst].
  f_equal. apply sorted_lists_agree; try apply sorted_sorted.
  - rewrite !sorted_perm.
    clear Hkeys Hstored Hstored'. induction Hsame.
    + reflexivity.
    + cbn [filter]. destruct (selected _ _ _ x); [constructor|]; assumption.
    + cbn [filter].
      destruct (selected _ _ _ x), (selected _ _ _ y);
        try reflexivity; apply perm_swap.
    + etransitivity; eassumption.
  - apply (Permutation_NoDup
             (Permutation_map key_of (Permutation_sym (sorted_perm _)))).
    clear Hsame Hstored. induction tasks as [|x tasks IH]; [constructor|].
    cbn [map] in Hkeys. apply NoDup_cons_iff in Hkeys.
    destruct Hkeys as [Hfresh Hkeys].
    cbn [filter]. destruct (selected _ _ _ x); [|apply IH, Hkeys].
    cbn [map]. constructor; [|apply IH, Hkeys].
    intros Hin. apply Hfresh. apply in_map_iff in Hin.
    destruct Hin as (y & Hkey & Hin). apply filter_In in Hin.
    rewrite <- Hkey. apply in_map. tauto.
Qed.


(** *** The dates which are accepted *)

Lemma spelled_tails_checked :
  forallb (fun m => forallb (fun d => spelled_tails_agree m d)
                            (map Z.of_nat (seq 1 31)))
          (map Z.of_nat (seq 1 12)) = true.
Proof. vm_compute. reflexivity. Qed.

Lemma strptime_spelling d value :
  valid_date d = true -> In value (accepted_spellings d) ->
  strptime value = Ok d.
Proof.
  intros Hvalid Hin. destruct (valid_date_bounds d Hvalid) as (Hy & Hm & Hd).
  unfold accepted_spellings in Hin. apply in_map_iff in Hin.
  destruct Hin as (tail & <- & Hin).
  destruct d as [y m dd]. cbn [year month day] in *.
  destruct (year_digits y) as (a & b & c & e & Ha & Hb & Hc & He & ->);
    [lia|].
  destruct (year_text_of_digits a b c e Ha Hb Hc He) as [Htext Hint].
  assert (Hmd := proj1 (forallb_forall _ _) spelled_tails_checked
                       m (in_range_of_nats m 12 Hm)).
  assert (Hmd' := proj1 (forallb_forall _ _) Hmd
                        dd (in_range_of_nats dd 31 Hd)).
  clear Hmd. cbv beta in Hmd'. unfold spelled_tails_agree in Hmd'.
  assert (Htail := proj1 (forallb_forall _ _) Hmd' tail Hin).
  clear Hmd'. cbv beta in Htail.
  unfold strptime. rewrite Htext. rewrite !list_ascii_of_string_app.
  rewrite list_ascii_of_string_of_list_ascii.
  unfold digits4 at 1. cbn [app list_ascii_of_string].
  rewrite match_date_fmt_year by (apply is_digit_digit_char; assumption).
  destruct (match_month_day _) as [[[M D] rest]|]; [|discriminate].
  destruct rest; [|discriminate].
  apply andb_prop in Htail. destruct Htail as [HM HD].
  apply reads_as_true in HM, HD.
  cbn [option_map]. fold (digits4 a b c e).
  rewrite Hint, HM, HD. cbn [rbind]. rewrite Hvalid. reflexivity.
Qed.

Ltac read_spelling :=
  match goal with
  | |- exists m, _ /\ int_of_str ?text = Ok m /\ _ =>
      let r := eval vm_compute in (int_of_str text) in
      match r with Ok ?v => exists v end
  end;
  split; [lia|split; [vm_compute; reflexivity|]];
  vm_compute; tauto.

Lemma month_spelling_inv M :
  matches re_m M ->
  exists m, 1 <= m <= 12
    /\ int_of_str (string_of_list_ascii M) = Ok m
    /\ In (string_of_list_ascii M) (month_spellings m).
Proof.
  unfold re_m. intros H. invert_matches; read_spelling.
Qed.

Lemma day_spelling_inv D :
  matches re_d D ->
  exists d, 1 <= d <= 31
    /\ int_of_str (string_of_list_ascii D) = Ok d
    /\ In (string_of_list_ascii D) (day_spellings d).
Proof.
  unfold re_d. intros H. invert_matches;
    try (apply digit_cases in Hv; cbn in Hv;
         repeat (destruct Hv as [<-|Hv]); try contradiction);
    read_spelling.
Qed.

Lemma strptime_spelled value d :
  strptime value = Ok d -> In value (accepted_spellings d).
Proof.
  unfold strptime.
  destruct (match_date_fmt _) as [[[[Y M] D] rest]|] eqn:Hmatch;
    [|discriminate].
  destruct rest; [|discriminate].
  apply match_date_fmt_sound in Hmatch. destruct Hmatch as (Hs & HY & HM & HD).
  destruct (year_text_inv Y HY) as (y & _ & Hy & HYtext).
  destruct (month_spelling_inv M HM) as (m & _ & Hm & HMtext).
  destruct (day_spelling_inv D HD) as (dd & _ & Hdd & HDtext).
  rewrite Hy, Hm, Hdd. cbn [rbind].
  destruct (valid_date _); [|discriminate].
  intros H. injection H as <-.
  rewrite <- (string_of_list_ascii_of_string value), Hs.
  rewrite app_nil_r, string_of_list_ascii_app.
  cbn [string_of_list_ascii]. rewrite string_of_list_ascii_app.
  cbn [string_of_list_ascii]. rewrite HYtext.
  unfold accepted_spellings, spelled_tails. cbn [year month day].
  apply in_map_iff. eexists. split; [reflexivity|].
  apply in_flat_map. exists (string_of_list_ascii M).
  split; [exact HMtext|].
  apply in_map_iff. exists (string_of_list_ascii D).
  split; [reflexivity|exact HDtext].
Qed.

(** X18: [strptime], for the format of the program, accepts a text of
    ASCII characters exactly when it is a spelling of a date of the
    calendar: four digits for the year, the month and the day with or
    without their leading zero, a day of one digit also with a space in
    the place of the zero; and it then returns this date. *)
Theorem strptime_accepts_spellings (value : string) (d : date)
    (Hascii : is_ascii value = true) :
  strptime value = Ok d
  <-> valid_date d = true /\ In value (accepted_spellings d).
Proof.
  split.
  - intros H. split; [exact (proj1 (strptime_inv value d H))|].
    exact (strptime_spelled value d H).
  - intros [Hvalid Hin]. exact (strptime_spelling d value Hvalid Hin).
Qed.

(** X19: an explicit date is kept as it was typed: [parse_date] returns
    the text of a spelling of a date unchanged, zeros missing included.
    So a task added under a date typed without its zeros is stored under
    this text, and the listing of the same date written YYYY-MM-DD does
    not hold it. *)
Theorem explicit_date_is_kept_as_typed
    (disk : store) (tasks : list Task) (d : date) (value text : string)
    (Hstored : stored disk tasks)
    (Hvalid : valid_date d = true)
    (Hspelled : In value (accepted_spellings d))
    (Hshort : value <> strftime d) :
  parse_date value = Ok value
  /\ exists new_task disk1 shown,
       command (AddArgs text value) disk
       = (Ok ("Đã thêm nhiệm vụ " ++ str_of_int (task_id new_task) ++ ": "
              ++ text)%string, disk1)
       /\ stored disk1 (tasks ++ [new_task])
       /\ scheduled_for new_task = value
       /\ list_tasks (Some (strftime d)) false None disk1 = (Ok shown, disk1)
       /\ ~ In new_task shown.
Proof.
  assert (Hd := strptime_spelling d value Hvalid Hspelled).
  split.
  - unfold parse_date. rewrite (strptime_not_today _ _ Hd), Hd. reflexivity.
  - eexists. eexists. eexists.
    unfold command, bind, ret.
    rewrite (add_task_stored disk tasks text value Hstored).
    split; [reflexivity|]. split; [apply stored_file_of|].
    split; [reflexivity|].
    split; [apply list_tasks_stored, stored_file_of|].
    intros Hshown. apply in_sorted, filter_In in Hshown.
    destruct Hshown as [_ Hsel]. unfold selected in Hsel. cbn in Hsel.
    rewrite andb_true_r in Hsel. apply String.eqb_eq in Hsel.
    exact (Hshort Hsel).
Qed.


(** *** What the listing prints *)

(** X20: the listing prints the message of an empty result exactly when no
    task is selected; a line of a task is never taken for this message. *)
Theorem no_match_message_iff_empty (tasks : list Task) :
  render_tasks tasks = "Không có nhiệm vụ nào khớp với yêu cầu."
  <-> tasks = [].
Proof.
  split; [|intros ->; reflexivity].
  destruct tasks as [|task tasks]; [reflexivity|].
  assert (Hhead : exists rest,
            join (String "010" "") (render_line task :: map render_line tasks)
            = String "[" rest).
  { cbn [join]. destruct (map render_line tasks); eexists;
      unfold render_line; cbn [append]; reflexivity. }
  destruct Hhead as [rest Hrest].
  unfold render_tasks. cbn [map]. cbv iota. rewrite Hrest. discriminate.
Qed.

End Program.

(** ** The statements on a sample file *)

Local Open Scope list_scope.

Lemma next_id_and_add_sequence_witness :
  stored sample_repr None []
  /\ max_id_plus_one [report; milk] (next_task_id [report; milk])
  /\ map returned_id
       (fst (run_adds sample_repr
               [("Buy milk", "2024-05-01"); ("Write report", "2024-05-01")]
               None))
     = [Ok 1; Ok 2].
Proof.
  split; [reflexivity|].
  exact (next_id_and_add_sequence sample_repr [report; milk]
           [("Buy milk", "2024-05-01"); ("Write report", "2024-05-01")]
           None eq_refl).
Defined.

Lemma unknown_id_is_reported_witness :
  exists msg,
    not_found 99 = TaskError msg
    /\ remove_task sample_repr 99 None = (Raise (TaskError msg), None)
    /\ update_task_state sample_repr 99 true None
       = (Raise (TaskError msg), None)
    /\ main sample_day sample_repr (ArgvRemove "99") None
       = {| ended := Returned 1; stdout := []; stderr := [msg];
            disk_after := None |}
    /\ main sample_day sample_repr (ArgvDone "99" false) None
       = {| ended := Returned 1; stdout := []; stderr := [msg];
            disk_after := None |}
    /\ exit_code (ended (main sample_day sample_repr (ArgvRemove "99") None))
       = 1
    /\ exit_code
         (ended (main sample_day sample_repr (ArgvDone "99" false) None))
       = 1.
Proof.
  apply (unknown_id_is_reported sample_day sample_repr None [] 99 "99"
           true false).
  - reflexivity.
  - simpl. intros H. exact H.
  - reflexivity.
Defined.

Lemma list_tasks_filters_and_sorts_witness :
  exists shown,
    list_tasks sample_repr (Some "2024-05-01") true (Some false)
               (file_of [twin; report; milk])
    = (Ok shown, file_of [twin; report; milk])
    /\ Permutation shown
         (filter (fun task =>
                    true && matches_state task (Some false))
                 [twin; report; milk])
    /\ StronglySorted listed_before shown.
Proof.
  apply (list_tasks_filters_and_sorts sample_repr
           (file_of [twin; report; milk]) [twin; report; milk]
           (Some "2024-05-01") true (Some false)).
  reflexivity.
Defined.

Lemma update_changes_only_completed_witness :
  exists before task after updated,
    [report; milk; twin] = before ++ task :: after
    /\ ~ In 1 (map task_id before)
    /\ task_id task = 1
    /\ task_id updated = task_id task
    /\ description updated = description task
    /\ scheduled_for updated = scheduled_for task
    /\ completed updated = true
    /\ update_task_state sample_repr 1 true (file_of [report; milk; twin])
       = (Ok updated, file_of (before ++ updated :: after))
    /\ stored sample_repr (file_of (before ++ updated :: after))
              (before ++ updated :: after).
Proof.
  apply (update_changes_only_completed sample_repr
           (file_of [report; milk; twin]) [report; milk; twin] 1 true).
  - reflexivity.
  - simpl. right. left. reflexivity.
Defined.

Lemma done_then_undone_restores_witness :
  exists before task after marked disk1 restored disk2,
    [report; milk; twin] = before ++ task :: after
    /\ ~ In 1 (map task_id before)
    /\ task_id task = 1
    /\ update_task_state sample_repr 1 true (file_of [report; milk; twin])
       = (Ok marked, disk1)
    /\ completed marked = true
    /\ update_task_state sample_repr 1 false disk1 = (Ok restored, disk2)
    /\ completed restored = false
    /\ task_id restored = task_id task
    /\ description restored = description task
    /\ scheduled_for restored = scheduled_for task
    /\ stored sample_repr disk2 (before ++ restored :: after).
Proof.
  apply (done_then_undone_restores sample_repr
           (file_of [report; milk; twin]) [report; milk; twin] 1).
  - reflexivity.
  - simpl. right. left. reflexivity.
Defined.

Lemma removed_id_not_listed_witness :
  exists removed disk' shown,
    remove_task sample_repr 1 (file_of [report; milk]) = (Ok removed, disk')
    /\ task_id removed = 1
    /\ list_tasks sample_repr None true None disk' = (Ok shown, disk')
    /\ ~ In 1 (map task_id shown).
Proof.
  apply (removed_id_not_listed sample_repr (file_of [report; milk])
           [report; milk] 1 None).
  - reflexivity.
  - simpl. right. left. reflexivity.
  - simpl. constructor.
    + simpl. intros [H|H]; [discriminate H|exact H].
    + constructor; [intros H; exact H|constructor].
Defined.

(** The claim C8 as it is written fails when two stored tasks bear the
    same id: [remove_task] takes the first away and the listing of all
    tasks still holds the second. *)
Lemma removed_id_still_listed :
  stored sample_repr (file_of [milk; twin]) [milk; twin]
  /\ In 1 (map task_id [milk; twin])
  /\ remove_task sample_repr 1 (file_of [milk; twin])
     = (Ok milk, file_of [twin])
  /\ list_tasks sample_repr None true None (file_of [twin])
     = (Ok [twin], file_of [twin])
  /\ In 1 (map task_id [twin]).
Proof.
  repeat split; try reflexivity; simpl; left; reflexivity.
Qed.

Lemma parse_date_accepts_witness :
  parse_date sample_day "today" = Ok "2024-05-01"
  /\ parse_date sample_day "2024-02-29" = Ok "2024-02-29"
  /\ (lower "2024-12-31" = "today"
      \/ exists d, valid_date d = true /\ In "2024-12-31" (spellings d))
  /\ main sample_day sample_repr (ArgvList (Some "2024-02-30") false false false)
          (file_of [milk])
     = {| ended := SystemExit 2; stdout := []; stderr := [];
          disk_after := file_of [milk] |}.
Proof.
  split.
  { exact (proj1 (parse_date_accepts sample_day sample_repr "today") eq_refl). }
  split.
  { exact (proj1 (proj2 (parse_date_accepts sample_day sample_repr "2024-02-29"))
             {| year := 2024; month := 2; day := 29 |} eq_refl eq_refl). }
  split.
  { exact (proj1 (proj2 (proj2
             (parse_date_accepts sample_day sample_repr "2024-12-31")))
             "2024-12-31" eq_refl eq_refl). }
  exact (proj2 (proj2 (proj2 (proj2 (proj2
           (parse_date_accepts sample_day sample_repr "2024-02-30")))
           _ eq_refl) "" false false false (file_of [milk]))).
Defined.

(** The claim C2 as it is written fails on [TODAY], which is accepted and
    is neither the token [today] nor a date, and on [2024-5-1], which is
    accepted and lacks its zeros. *)
Lemma parse_date_beyond_the_claim :
  parse_date sample_day "TODAY" = Ok "2024-05-01"
  /\ ~ literal_today_or_padded "TODAY"
  /\ parse_date sample_day "2024-5-1" = Ok "2024-5-1"
  /\ ~ literal_today_or_padded "2024-5-1".
Proof.
  split; [reflexivity|]. split.
  { intros [H|(d & Hvalid & H)]; [discriminate H|].
    assert (Hd := strptime_strftime d Hvalid). rewrite <- H in Hd.
    discriminate Hd. }
  split; [reflexivity|].
  intros [H|(d & Hvalid & H)]; [discriminate H|].
  assert (Hd := strptime_strftime d Hvalid). rewrite <- H in Hd.
  vm_compute in Hd. injection Hd as <-. discriminate H.
Qed.

Lemma bare_commands_default_to_today_witness :
  parse_args sample_day (ArgvList None false false false)
  = Namespace (ListArgs "2024-05-01" false false false)
  /\ exists shown,
       main sample_day sample_repr (ArgvList None false false false)
            (file_of [twin; report; milk])
       = {| ended := Returned 0; stdout := [render_tasks shown];
            stderr := []; disk_after := file_of [twin; report; milk] |}
       /\ (forall task,
             In task shown
             <-> In task [twin; report; milk]
                 /\ scheduled_for task = "2024-05-01").
Proof.
  destruct (bare_commands_default_to_today sample_day sample_repr
              (file_of [twin; report; milk]) [twin; report; milk] "x"
              eq_refl ltac:(simpl; lia) eq_refl)
    as (Hlist & _ & shown & Hmain & _ & Hshown & _).
  split; [exact Hlist|]. exists shown. split; [exact Hmain|exact Hshown].
Defined.

(** ** The further properties on a sample file *)

Lemma add_appends_fresh_task_witness :
  exists new_task,
    add_task sample_repr "Gọi điện" "2024-05-03" (file_of [report; milk])
    = (Ok new_task, file_of ([report; milk] ++ [new_task]))
    /\ stored sample_repr (file_of ([report; milk] ++ [new_task]))
              ([report; milk] ++ [new_task])
    /\ description new_task = "Gọi điện"
    /\ scheduled_for new_task = "2024-05-03"
    /\ completed new_task = false
    /\ forall task, In task [report; milk] -> task_id task < task_id new_task.
Proof.
  exact (add_appends_fresh_task sample_repr (file_of [report; milk])
           [report; milk] "Gọi điện" "2024-05-03" eq_refl).
Defined.

Lemma remove_takes_first_only_witness :
  exists before task after,
    [report; milk; twin] = before ++ task :: after
    /\ ~ In 1 (map task_id before)
    /\ task_id task = 1
    /\ remove_task sample_repr 1 (file_of [report; milk; twin])
       = (Ok task, file_of (before ++ after))
    /\ stored sample_repr (file_of (before ++ after)) (before ++ after).
Proof.
  apply (remove_takes_first_only sample_repr (file_of [report; milk; twin])
           [report; milk; twin] 1).
  - reflexivity.
  - simpl. right. left. reflexivity.
Defined.

Lemma add_then_remove_undoes_witness :
  exists new_task disk1 again disk2,
    add_task sample_repr "a" "2024-05-03" (file_of [report; milk])
    = (Ok new_task, disk1)
    /\ remove_task sample_repr (task_id new_task) disk1
       = (Ok new_task, file_of [report; milk])
    /\ add_task sample_repr "b" "2024-05-04" (file_of [report; milk])
       = (Ok again, disk2)
    /\ task_id again = task_id new_task.
Proof.
  exact (add_then_remove_undoes sample_repr (file_of [report; milk])
           [report; milk] "a" "2024-05-03" "b" "2024-05-04" eq_refl).
Defined.

Lemma update_twice_is_once_witness :
  exists updated disk1,
    update_task_state sample_repr 1 true (file_of [report; milk])
    = (Ok updated, disk1)
    /\ update_task_state sample_repr 1 true disk1 = (Ok updated, disk1).
Proof.
  apply (update_twice_is_once sample_repr (file_of [report; milk])
           [report; milk] 1 true).
  - reflexivity.
  - simpl. right. left. reflexivity.
Defined.



Lemma from_dict_defaults_witness :
  from_dict sample_repr
    (JObj [("scheduled_for", JStr "2024-05-01"); ("note", JNull);
           ("task_id", JStr "7"); ("description", JStr "Đọc sách")])
  = Ok {| task_id := 7; description := "Đọc sách";
          scheduled_for := "2024-05-01"; completed := false |}.
Proof.
  apply (from_dict_defaults sample_repr
           [("scheduled_for", JStr "2024-05-01"); ("note", JNull);
            ("task_id", JStr "7"); ("description", JStr "Đọc sách")]
           7 "Đọc sách" "2024-05-01").
  - reflexivity.
  - reflexivity.
  - right. reflexivity.
  - vm_compute. reflexivity.
  - reflexivity.
Defined.

Lemma load_of_non_list_witness :
  fst (load_tasks sample_repr (Some (Parsed (JObj [("task_id", JInt 1)]))))
  = Raise TypeError.
Proof.
  apply (load_of_non_list sample_repr (JObj [("task_id", JInt 1)])).
  intros items H. discriminate H.
Defined.

Lemma load_stops_at_first_bad_record_witness :
  load_tasks sample_repr
    (Some (Parsed (JList (map asdict [milk] ++ JNull :: [JInt 3]))))
  = (Raise TypeError,
     Some (Parsed (JList (map asdict [milk] ++ JNull :: [JInt 3])))).
Proof.
  exact (load_stops_at_first_bad_record sample_repr [milk] JNull [JInt 3]
           TypeError eq_refl).
Defined.

Lemma added_task_is_listed_witness :
  exists new_task disk1 shown,
    add_task sample_repr "a" "2024-05-03" (file_of [report; milk])
    = (Ok new_task, disk1)
    /\ list_tasks sample_repr (Some "2024-05-03") false (Some false) disk1
       = (Ok shown, disk1)
    /\ In new_task shown.
Proof.
  exact (added_task_is_listed sample_repr (file_of [report; milk])
           [report; milk] "a" "2024-05-03" false true eq_refl).
Defined.

Lemma done_task_leaves_pending_listing_witness :
  exists marked disk1 pending done,
    update_task_state sample_repr 1 true (file_of [report; milk])
    = (Ok marked, disk1)
    /\ list_tasks sample_repr None true (Some false) disk1
       = (Ok pending, disk1)
    /\ ~ In 1 (map task_id pending)
    /\ list_tasks sample_repr None true (Some true) disk1 = (Ok done, disk1)
    /\ In marked done.
Proof.
  apply (done_task_leaves_pending_listing sample_repr
           (file_of [report; milk]) [report; milk] 1 None true).
  - reflexivity.
  - simpl. right. left. reflexivity.
  - simpl. constructor.
    + simpl. intros [H|H]; [discriminate H|exact H].
    + constructor; [intros H; exact H|constructor].
Defined.

Lemma listing_ignores_file_order_witness :
  fst (list_tasks sample_repr None true None (file_of [milk; report]))
  = fst (list_tasks sample_repr None true None (file_of [report; milk])).
Proof.
  apply (listing_ignores_file_order sample_repr
           (file_of [milk; report]) (file_of [report; milk])
           [milk; report] [report; milk] None true None).
  - reflexivity.
  - reflexivity.
  - apply perm_swap.
  - simpl. constructor.
    + simpl. intros [H|H]; [discriminate H|exact H].
    + constructor; [intros H; exact H|constructor].
Defined.

Lemma strptime_accepts_spellings_witness :
  strptime "2024-5- 1" = Ok sample_day
  <-> valid_date sample_day = true
      /\ In "2024-5- 1" (accepted_spellings sample_day).
Proof.
  exact (strptime_accepts_spellings "2024-5- 1" sample_day eq_refl).
Defined.

Lemma explicit_date_is_kept_as_typed_witness :
  parse_date sample_day "2024-5-1" = Ok "2024-5-1"
  /\ exists new_task disk1 shown,
       command sample_repr (AddArgs "a" "2024-5-1") (file_of [milk])
       = (Ok ("Đã thêm nhiệm vụ " ++ str_of_int (task_id new_task) ++ ": "
              ++ "a")%string, disk1)
       /\ stored sample_repr disk1 ([milk] ++ [new_task])
       /\ scheduled_for new_task = "2024-5-1"
       /\ list_tasks sample_repr (Some (strftime sample_day)) false None disk1
          = (Ok shown, disk1)
       /\ ~ In new_task shown.
Proof.
  apply (explicit_date_is_kept_as_typed sample_day sample_repr
           (file_of [milk]) [milk] sample_day "2024-5-1" "a").
  - reflexivity.
  - reflexivity.
  - simpl. right. right. right. right. left. reflexivity.
  - simpl. discriminate.
Defined.

Lemma printed_id_reads_back_witness :
  int_of_str (str_of_int (-12)) = Ok (-12)
  /\ int_of_str (format_03d (-12)) = Ok (-12)
  /\ parse_args sample_day (ArgvDone (str_of_int (-12)) true)
     = Namespace (DoneArgs (-12) true)
  /\ parse_args sample_day (ArgvRemove (format_03d (-12)))
     = Namespace (RemoveArgs (-12)).
Proof.
  apply (printed_id_reads_back sample_day (-12) true).
  vm_compute. reflexivity.
Defined.
